(** * markdown-studio: link classification, rendering rules and the preview
    readiness handshake

    A shallow embedding of the Markdown renderer module (the third unit of
    [src/src/extension.ts]: link and image rewriting, fenced-code rendering,
    HTML escaping) and of the readiness handshake of
    [src/src/preview/PreviewPanel.ts], with the properties the specification
    states about them.

    JavaScript strings are sequences of UTF-16 code units; they are modelled
    as lists of code units ([N]).  Every character class the source uses holds
    code points of the Basic Multilingual Plane only, so reading a string code
    unit by code unit agrees with the [u]-flag reading by code point. *)

From Stdlib Require Import String Ascii List Bool NArith ZArith Lia.
Import ListNotations.


(* ================================================================== *)
(** * Part I: definitions *)
(* ================================================================== *)

(** ** JavaScript strings *)

Definition jsstring := list N.

(** A literal: the code units of an ASCII text. *)
Definition js (s : string) : jsstring :=
  map N_of_ascii (list_ascii_of_string s).

Definition CH_HASH : N := 35.        (* # *)
Definition CH_QUESTION : N := 63.    (* ? *)
Definition CH_COLON : N := 58.       (* : *)
Definition CH_SLASH : N := 47.       (* / *)
Definition CH_BACKSLASH : N := 92.   (* \ *)
Definition CH_DQUOTE : N := 34.      (* double quote *)
Definition CH_SQUOTE : N := 39.      (* ' *)
Definition CH_AMP : N := 38.         (* & *)
Definition CH_LT : N := 60.          (* < *)
Definition CH_GT : N := 62.          (* > *)
Definition CH_DOT : N := 46.         (* . *)

Fixpoint jseqb (a b : jsstring) : bool :=
  match a, b with
  | [], [] => true
  | x :: a', y :: b' => N.eqb x y && jseqb a' b'
  | _, _ => false
  end.

(** [String.prototype.startsWith]. *)
Fixpoint startsWith (prefix s : jsstring) : bool :=
  match prefix, s with
  | [], _ => true
  | p :: prefix', x :: s' => N.eqb p x && startsWith prefix' s'
  | _ :: _, [] => false
  end.

(** [String.prototype.includes]. *)
Fixpoint includes (needle s : jsstring) : bool :=
  startsWith needle s ||
  match s with
  | [] => false
  | _ :: s' => includes needle s'
  end.

(** [String.prototype.indexOf] for a one-unit needle: the first index, or -1. *)
Fixpoint indexOf (c : N) (s : jsstring) : Z :=
  match s with
  | [] => (-1)%Z
  | x :: s' =>
      if N.eqb x c then 0%Z
      else let i := indexOf c s' in
           if (i <? 0)%Z then (-1)%Z else (i + 1)%Z
  end.

(** The index normalisation of [String.prototype.slice]: a negative index
    counts from the end, and every index is clamped to the string. *)
Definition clampIndex (len i : Z) : Z :=
  if (i <? 0)%Z then Z.max (len + i) 0 else Z.min i len.

(** [s.slice(b, e)]. *)
Definition slice (s : jsstring) (b e : Z) : jsstring :=
  let len := Z.of_nat (length s) in
  let from := clampIndex len b in
  let to := clampIndex len e in
  firstn (Z.to_nat (to - from)) (skipn (Z.to_nat from) s).

(** [s.slice(b)]. *)
Definition sliceFrom (s : jsstring) (b : Z) : jsstring :=
  slice s b (Z.of_nat (length s)).

(** [s.replace(/c/gu, by)] for a single character [c] and a replacement text
    without dollar patterns: every occurrence is replaced, left to right. *)
Definition replaceAllChar (c : N) (by_ : jsstring) (s : jsstring) : jsstring :=
  flat_map (fun x => if N.eqb x c then by_ else [x]) s.

Fixpoint dropWhile (p : N -> bool) (s : jsstring) : jsstring :=
  match s with
  | [] => []
  | x :: s' => if p x then dropWhile p s' else s
  end.

Fixpoint takeWhile (p : N -> bool) (s : jsstring) : jsstring :=
  match s with
  | [] => []
  | x :: s' => if p x then x :: takeWhile p s' else []
  end.

(** White space as [String.prototype.trim] and the class [\s] read it:
    WhiteSpace and LineTerminator of ECMA-262. *)
Definition isWhiteSpace (c : N) : bool :=
  ((9 <=? c) && (c <=? 13) || (c =? 32) || (c =? 160) || (c =? 5760)
   || (8192 <=? c) && (c <=? 8202) || (c =? 8232) || (c =? 8233)
   || (c =? 8239) || (c =? 8287) || (c =? 12288) || (c =? 65279))%N.

Definition trimStart (s : jsstring) : jsstring := dropWhile isWhiteSpace s.
Definition trimEnd (s : jsstring) : jsstring := rev (dropWhile isWhiteSpace (rev s)).
Definition trim (s : jsstring) : jsstring := trimEnd (trimStart s).

(** [s.split(/\s+/u)[0]]: the text before the first run of white space (the
    whole string when it has none; the empty string splits into one empty
    piece, so the element always exists). *)
Definition splitWhiteSpaceFirst (s : jsstring) : jsstring :=
  takeWhile (fun c => negb (isWhiteSpace c)) s.

(** ** Regular expressions anchored at the start

    The tests of the source are all of the shape [/^x1 x2 ... xn/] where each
    [xi] is a character class, possibly starred.  [regexTest] is
    [RegExp.prototype.test] for such a pattern: some prefix of the string
    matches the sequence (a backtracking search, as in the engine). *)

Inductive RegexItem : Type :=
| One (cls : N -> bool)
| Star (cls : N -> bool).

Fixpoint regexTest (items : list RegexItem) : jsstring -> bool :=
  match items with
  | [] => fun _ => true
  | One cls :: rest =>
      fun s => match s with
               | [] => false
               | c :: s' => cls c && regexTest rest s'
               end
  | Star cls :: rest =>
      fix star (s : jsstring) : bool :=
        regexTest rest s ||
        match s with
        | [] => false
        | c :: s' => cls c && star s'
        end
  end.

Definition isLowerAz (c : N) : bool := ((97 <=? c) && (c <=? 122))%N.
Definition isUpperAz (c : N) : bool := ((65 <=? c) && (c <=? 90))%N.
Definition isAsciiLetter (c : N) : bool := isLowerAz c || isUpperAz c.
Definition isDigit (c : N) : bool := ((48 <=? c) && (c <=? 57))%N.

(** The class [[a-z]] under the flags [iu]: a character belongs to it when its
    simple case folding does, which adds to the ASCII letters the two
    characters that fold into them, U+017F (long s) and U+212A (Kelvin). *)
Definition clsLetterIU (c : N) : bool :=
  (isAsciiLetter c || (c =? 383) || (c =? 8490))%N.

(** The class [[a-z0-9+.-]] under the flags [iu]. *)
Definition clsSchemeTailIU (c : N) : bool :=
  (clsLetterIU c || isDigit c || (c =? 43) || (c =? 46) || (c =? 45))%N.

(** The class [[/\\]]. *)
Definition clsPathSep (c : N) : bool := ((c =? CH_SLASH) || (c =? CH_BACKSLASH))%N.

Definition clsChar (x : N) (c : N) : bool := (c =? x)%N.

(** A lower-case ASCII letter other than k and s under the flags [iu]: the
    letter or its capital. *)
Definition clsCharI (lower : N) (c : N) : bool := ((c =? lower) || (c =? lower - 32))%N.

(** [/^[a-z][a-z0-9+.-]*:/iu] *)
Definition RE_URI_SCHEME : list RegexItem :=
  [One clsLetterIU; Star clsSchemeTailIU; One (clsChar CH_COLON)].

(** [/^[a-z]:[/\\]/iu] *)
Definition RE_WINDOWS_ABSOLUTE : list RegexItem :=
  [One clsLetterIU; One (clsChar CH_COLON); One clsPathSep].

(** [/^data:/iu] *)
Definition RE_DATA_URI : list RegexItem :=
  [One (clsCharI 100); One (clsCharI 97); One (clsCharI 116); One (clsCharI 97);
   One (clsChar CH_COLON)].

(** ** Href parts *)

Record HrefParts : Type := mkHrefParts {
  pathPart : jsstring;
  query : jsstring;
  fragment : jsstring
}.

(** [splitHref] (extension.ts, lines 329-339). *)
Definition splitHref (href : jsstring) : HrefParts :=
  let hashIndex := indexOf CH_HASH href in
  let fragment := if (hashIndex >=? 0)%Z then sliceFrom href (hashIndex + 1) else [] in
  let withoutFragment := if (hashIndex >=? 0)%Z then slice href 0 hashIndex else href in
  let queryIndex := indexOf CH_QUESTION withoutFragment in
  let query := if (queryIndex >=? 0)%Z then sliceFrom withoutFragment (queryIndex + 1) else [] in
  let pathPart := if (queryIndex >=? 0)%Z then slice withoutFragment 0 queryIndex else withoutFragment in
  mkHrefParts pathPart query fragment.

(** JavaScript truthiness of a string: non-empty. *)
Definition truthy (s : jsstring) : bool :=
  match s with [] => false | _ :: _ => true end.

(** Modelled from the spec's words (section 3, HrefParts): the reassembly
    [pathPart + ('?'+query if query) + ('#'+fragment if fragment)]. *)
Definition reassemble_spec (p : HrefParts) : jsstring :=
  pathPart p
  ++ (if truthy (query p) then CH_QUESTION :: query p else [])
  ++ (if truthy (fragment p) then CH_HASH :: fragment p else []).

(** ** Classification predicates *)

Definition isLikelyWindowsAbsolutePath (value : jsstring) : bool :=
  regexTest RE_WINDOWS_ABSOLUTE value.

Definition isExternalHref (value : jsstring) : bool :=
  if isLikelyWindowsAbsolutePath value then false
  else regexTest RE_URI_SCHEME value.

Definition isDataUri (value : jsstring) : bool :=
  regexTest RE_DATA_URI value.

Inductive LinkKind : Type := hash | external | markdown | asset.

(** The string a [LinkKind] is in the source. *)
Definition LinkKind_text (k : LinkKind) : jsstring :=
  match k with
  | hash => js "hash"
  | external => js "external"
  | markdown => js "markdown"
  | asset => js "asset"
  end.

Definition LinkKind_eqb (a b : LinkKind) : bool :=
  match a, b with
  | hash, hash | external, external | markdown, markdown | asset, asset => true
  | _, _ => false
  end.

(** ** The host: Node's path module, the editor API and the libraries

    The renderer calls into [node:path], [vscode], the JavaScript runtime,
    highlight.js and markdown-it.  What it calls is collected in one
    interface; the functions
    of the repository are written against it.  [path.isAbsolute] is given
    concretely below, per platform, since the order of the resolver's tests
    depends on it. *)

Inductive Platform : Type := Posix | Win32.

Class Host : Type := {
  (** [process.platform]: the flavour of [node:path] in use *)
  platform : Platform;
  (** [vscode.Uri] *)
  Uri : Type;
  Uri_file : jsstring -> Uri;
  Uri_parse : jsstring -> Uri;
  (** [uri.with({ query, fragment })] *)
  Uri_with : Uri -> jsstring -> jsstring -> Uri;
  Uri_scheme : Uri -> jsstring;
  Uri_fsPath : Uri -> jsstring;
  Uri_toString : Uri -> jsstring;
  (** the [uri] of each folder of [vscode.workspace.workspaceFolders]
      (undefined reads as no folder) *)
  workspace_workspaceFolders : list Uri;
  path_join : jsstring -> jsstring -> jsstring;
  path_resolve : jsstring -> jsstring -> jsstring;
  path_dirname : jsstring -> jsstring;
  path_extname : jsstring -> jsstring;
  (** [String.prototype.toLowerCase] *)
  toLowerCase : jsstring -> jsstring;
  (** [hljs.getLanguage(name)] is truthy *)
  hljs_getLanguage : jsstring -> bool;
  (** [hljs.highlight(code, { language, ignoreIllegals: true }).value] *)
  hljs_highlight : jsstring -> jsstring -> jsstring;
  (** markdown-it's [unescapeAll], applied to a fence's info string *)
  md_unescapeAll : jsstring -> jsstring;
  (** the empty path has no extension, and lower-casing keeps the empty
      string *)
  path_extname_empty : path_extname [] = [];
  toLowerCase_empty : toLowerCase [] = []
}.

(** [path.isAbsolute] of Node (lib/path.js).  POSIX: the path starts with a
    slash.  Windows: it starts with a separator, or with a drive letter, a
    colon and a separator. *)
Definition path_isAbsolute (pf : Platform) (p : jsstring) : bool :=
  match pf with
  | Posix =>
      match p with
      | c :: _ => N.eqb c CH_SLASH
      | [] => false
      end
  | Win32 =>
      match p with
      | [] => false
      | c :: rest =>
          clsPathSep c ||
          match rest with
          | c1 :: c2 :: _ => isAsciiLetter c && N.eqb c1 CH_COLON && clsPathSep c2
          | _ => false
          end
      end
  end.

Record RendererSettings : Type := mkRendererSettings {
  autoUpdateDebounceMs : Z;
  enableMermaid : bool;
  enableMath : bool;
  enableTaskLists : bool;
  enableFootnotes : bool
}.

Section Renderer.

Context {H : Host}.

(** [RenderContext]: the document is read through its [uri], the webview
    through [asWebviewUri], the workspace folder through its [uri]. *)
Record RenderContext : Type := mkRenderContext {
  document_uri : Uri;
  webview_asWebviewUri : Uri -> Uri;
  workspaceFolder : option Uri;
  settings : RendererSettings
}.

Record LinkRewriteResult : Type := mkLinkRewriteResult {
  href : jsstring;
  kind : LinkKind
}.

(** [MARKDOWN_EXTENSIONS.has(x)] *)
Definition MARKDOWN_EXTENSIONS_has (x : jsstring) : bool :=
  jseqb x (js ".md") || jseqb x (js ".markdown").

Definition isMarkdownPath (targetPath : jsstring) : bool :=
  MARKDOWN_EXTENSIONS_has (toLowerCase (path_extname targetPath)).

(** [a ?? b] *)
Definition nullish {A : Type} (a b : option A) : option A :=
  match a with Some _ => a | None => b end.

(** [workspaceFolder?.uri.fsPath ?? vscode.workspace.workspaceFolders?.[0]?.uri.fsPath]:
    the root of the document's folder, else of the first folder. *)
Definition workspaceRootOf (workspaceFolder_ : option Uri) : option jsstring :=
  nullish (option_map Uri_fsPath workspaceFolder_)
          (option_map Uri_fsPath (hd_error workspace_workspaceFolders)).

(** [resolveLocalFileUri] (extension.ts, lines 286-327); [None] is
    [undefined]. *)
Definition resolveLocalFileUri (href_ : jsstring) (sourceDocumentUri : Uri)
    (workspaceFolder_ : option Uri) : option Uri :=
  let parts := splitHref href_ in
  let pathPart_ := pathPart parts in
  if negb (truthy pathPart_) then None
  else if path_isAbsolute platform pathPart_ then
    Some (Uri_with (Uri_file pathPart_) (query parts) (fragment parts))
  else if isExternalHref pathPart_ then
    let parsedUri := Uri_parse href_ in
    if jseqb (Uri_scheme parsedUri) (js "file") then Some parsedUri else None
  else
    let resolvedPath :=
      if startsWith [CH_SLASH] pathPart_ || startsWith [CH_BACKSLASH] pathPart_ then
        let workspaceRoot := workspaceRootOf workspaceFolder_ in
        match workspaceRoot with
        | None => None
        | Some root =>
            if negb (truthy root) then None
            else
              let trimmedPath := dropWhile clsPathSep pathPart_ in
              Some (path_join root trimmedPath)
        end
      else
        Some (path_resolve (path_dirname (Uri_fsPath sourceDocumentUri)) pathPart_) in
    match resolvedPath with
    | None => None
    | Some p => Some (Uri_with (Uri_file p) (query parts) (fragment parts))
    end.

(** [rewriteLinkHref] (extension.ts, lines 253-284). *)
Definition rewriteLinkHref (href_ : jsstring) (context : RenderContext) : LinkRewriteResult :=
  if negb (truthy href_) then mkLinkRewriteResult href_ asset
  else if startsWith [CH_HASH] href_ then mkLinkRewriteResult href_ hash
  else
    let parts := splitHref href_ in
    if negb (truthy (pathPart parts)) then mkLinkRewriteResult href_ asset
    else if isExternalHref (pathPart parts) then mkLinkRewriteResult href_ external
    else if isMarkdownPath (pathPart parts) then mkLinkRewriteResult href_ markdown
    else
      match resolveLocalFileUri href_ (document_uri context) (workspaceFolder context) with
      | None => mkLinkRewriteResult href_ asset
      | Some resolvedUri =>
          mkLinkRewriteResult (Uri_toString (webview_asWebviewUri context resolvedUri)) asset
      end.

(** [rewriteImageSource] (extension.ts, lines 235-251). *)
Definition rewriteImageSource (source : jsstring) (context : RenderContext) : jsstring :=
  if negb (truthy source) then source
  else
    let parts := splitHref source in
    if negb (truthy (pathPart parts)) || isDataUri (pathPart parts)
       || isExternalHref (pathPart parts) then source
    else
      match resolveLocalFileUri source (document_uri context) (workspaceFolder context) with
      | None => source
      | Some resolvedUri => Uri_toString (webview_asWebviewUri context resolvedUri)
      end.

(** ** Tokens of markdown-it

    A token's [attrs] is an array of name and value pairs (null reads as the
    empty array); [attrGet] reads the first pair of a name, [attrSet]
    overwrites it in place or appends a new pair. *)

Record Token : Type := mkToken {
  attrs : list (jsstring * jsstring);
  info : jsstring;
  content : jsstring
}.

Fixpoint attrsGet (name : jsstring) (l : list (jsstring * jsstring)) : option jsstring :=
  match l with
  | [] => None
  | (n, v) :: l' => if jseqb n name then Some v else attrsGet name l'
  end.

Fixpoint attrsSet (name value : jsstring) (l : list (jsstring * jsstring))
  : list (jsstring * jsstring) :=
  match l with
  | [] => [(name, value)]
  | (n, v) :: l' =>
      if jseqb n name then (name, value) :: l' else (n, v) :: attrsSet name value l'
  end.

Definition attrGet (token : Token) (name : jsstring) : option jsstring :=
  attrsGet name (attrs token).

Definition attrSet (token : Token) (name value : jsstring) : Token :=
  mkToken (attrsSet name value (attrs token)) (info token) (content token).

(** [x ?? ""] for a string that may be null. *)
Definition orEmpty (x : option jsstring) : jsstring :=
  match x with Some v => v | None => [] end.

(** The [link_open] rule (extension.ts, lines 200-230): the token as the rule
    leaves it.  markdown-it has no default rule for [link_open], so the tag is
    then written by [self.renderToken], one attribute per pair of [attrs]. *)
Definition link_open (context : RenderContext) (token : Token) : Token :=
  let originalHref := orEmpty (attrGet token (js "href")) in
  let rewrittenLink := rewriteLinkHref originalHref context in
  let token := attrSet token (js "href") (href rewrittenLink) in
  let token := attrSet token (js "data-original-href") originalHref in
  let token := attrSet token (js "data-source-doc") (Uri_toString (document_uri context)) in
  let token := attrSet token (js "data-link-kind") (LinkKind_text (kind rewrittenLink)) in
  if LinkKind_eqb (kind rewrittenLink) external then
    let token := attrSet token (js "target") (js "_blank") in
    attrSet token (js "rel") (js "noopener noreferrer")
  else
    let token := attrSet token (js "target") (js "_self") in
    attrSet token (js "rel") (js "noopener noreferrer").

(** ** Fenced code *)

(** [escapeHtml] (extension.ts, lines 384-391): five replacements in a row. *)
Definition escapeHtml (value : jsstring) : jsstring :=
  replaceAllChar CH_SQUOTE (js "&#39;")
    (replaceAllChar CH_DQUOTE (js "&quot;")
      (replaceAllChar CH_GT (js "&gt;")
        (replaceAllChar CH_LT (js "&lt;")
          (replaceAllChar CH_AMP (js "&amp;") value)))).

Definition getFenceLanguage (info_ : jsstring) : jsstring :=
  toLowerCase (splitWhiteSpaceFirst (trim info_)).

(** A text between double quotes. *)
Definition quoted (s : jsstring) : jsstring := CH_DQUOTE :: s ++ [CH_DQUOTE].

(** The opening tag of the generic code container. *)
Definition PRE_CODE_BLOCK : jsstring := js "<pre class=" ++ quoted (js "code-block") ++ js ">".
Definition CODE_HLJS : jsstring := js "<code class=" ++ quoted (js "hljs") ++ js ">".
(** The opening tag of the container that marks a diagram. *)
Definition DIV_MERMAID : jsstring := js "<div class=" ++ quoted (js "mermaid") ++ js ">".

(** [renderCodeBlock] (extension.ts, lines 365-382). *)
Definition renderCodeBlock (code language : jsstring) : jsstring :=
  let normalizedLanguage := toLowerCase (splitWhiteSpaceFirst (trim language)) in
  if truthy normalizedLanguage && hljs_getLanguage normalizedLanguage then
    let highlighted := hljs_highlight code normalizedLanguage in
    PRE_CODE_BLOCK
    ++ (js "<code class=" ++ quoted (js "hljs language-" ++ normalizedLanguage) ++ js ">"
        ++ highlighted ++ js "</code>")
    ++ js "</pre>"
  else
    PRE_CODE_BLOCK ++ (CODE_HLJS ++ escapeHtml code ++ js "</code>") ++ js "</pre>".

(** The language name markdown-it's default fence rule hands to
    [options.highlight]: the first piece of the unescaped, trimmed info
    string. *)
Definition md_fenceLangName (info_ : jsstring) : jsstring :=
  let info' := if truthy info_ then trim (md_unescapeAll info_) else [] in
  if truthy info' then splitWhiteSpaceFirst info' else [].

(** The language [renderCodeBlock] looks up in the highlighter for a fence
    that reaches it through the default rule. *)
Definition fenceHighlightLanguage (info_ : jsstring) : jsstring :=
  toLowerCase (splitWhiteSpaceFirst (trim (md_fenceLangName info_))).

(** markdown-it's default fence rule (lib/renderer.js) as the renderer
    configures it: [options.highlight] is [renderCodeBlock], whose result is
    never empty and always starts with [<pre], and for such a result the rule
    returns it followed by a line feed. *)
Definition md_defaultFenceRule (token : Token) : jsstring :=
  renderCodeBlock (content token) (md_fenceLangName (info token)) ++ [10%N].

(** The [fence] rule (extension.ts, lines 156-176).  markdown-it defines a
    default rule for fences, so the fallback is that rule and the final
    [self.renderToken] is not reached. *)
Definition fence (context : RenderContext) (token : Token) : jsstring :=
  let language := getFenceLanguage (info token) in
  if enableMermaid (settings context) && jseqb language (js "mermaid") then
    DIV_MERMAID ++ escapeHtml (content token) ++ js "</div>"
  else md_defaultFenceRule token.

End Renderer.

(** ** The preview session's readiness handshake (PreviewPanel.ts) *)

Inductive Theme : Type := light | dark.

Record RenderPayload : Type := mkRenderPayload {
  html : jsstring;
  theme : Theme;
  title : jsstring
}.

(** What [handleMessage] receives: the two shapes [isIncomingMessage]
    accepts, and anything else. *)
Inductive WebviewMessage : Type :=
| MsgReady
| MsgOpenLink (href_ sourceDoc : jsstring)
| MsgUnknown.

(** The two fields of a session the handshake reads and writes. *)
Record Session : Type := mkSession {
  isReady : bool;
  pendingRenderPayload : option RenderPayload
}.

(** A session as its constructor leaves it. *)
Definition newSession : Session := mkSession false None.

(** [postRenderPayload] (PreviewPanel.ts, lines 166-173): the session after
    the call and the payloads handed to [webview.postMessage]. *)
Definition postRenderPayload (s : Session) (payload : RenderPayload)
  : Session * list RenderPayload :=
  if negb (isReady s) then (mkSession (isReady s) (Some payload), [])
  else (s, [payload]).

(** [handleMessage] (PreviewPanel.ts, lines 182-202).  [handleOpenLink] opens
    a document or a URI and may schedule a render; it neither reads nor
    writes the two fields and posts nothing itself. *)
Definition handleMessage (s : Session) (message : WebviewMessage)
  : Session * list RenderPayload :=
  match message with
  | MsgUnknown => (s, [])
  | MsgReady =>
      let s := mkSession true (pendingRenderPayload s) in
      match pendingRenderPayload s with
      | Some pendingPayload => (mkSession (isReady s) None, [pendingPayload])
      | None => (s, [])
      end
  | MsgOpenLink _ _ => (s, [])
  end.

(** What happens to a session: a render reaches [postRenderPayload], or the
    webview sends a message. *)
Inductive Event : Type :=
| EvRender (payload : RenderPayload)
| EvMessage (message : WebviewMessage).

Definition step (s : Session) (e : Event) : Session * list RenderPayload :=
  match e with
  | EvRender payload => postRenderPayload s payload
  | EvMessage message => handleMessage s message
  end.

(** The session after a sequence of events and everything posted to the
    webview, in order. *)
Fixpoint run (s : Session) (events : list Event) : Session * list RenderPayload :=
  match events with
  | [] => (s, [])
  | e :: events' =>
      let (s1, out1) := step s e in
      let (s2, out2) := run s1 events' in
      (s2, out1 ++ out2)
  end.

Definition isReadyEvent (e : Event) : bool :=
  match e with EvMessage MsgReady => true | _ => false end.

(** The payloads of the renders among some events, in order. *)
Fixpoint renders (events : list Event) : list RenderPayload :=
  match events with
  | [] => []
  | EvRender p :: events' => p :: renders events'
  | EvMessage _ :: events' => renders events'
  end.

(** The payload of the last render among some events. *)
Definition lastRender (events : list Event) : option RenderPayload :=
  last (map Some (renders events)) None.

Definition optionToList {A : Type} (x : option A) : list A :=
  match x with Some a => [a] | None => [] end.

(** ** Notions used in the statements *)

Definition notHash (c : N) : bool := negb (N.eqb c CH_HASH).
Definition notQuestion (c : N) : bool := negb (N.eqb c CH_QUESTION).


(** The href has a [#]. *)
Definition hasFragmentMark (href_ : jsstring) : bool :=
  existsb (N.eqb CH_HASH) href_.

(** The href has a [?] before its first [#]. *)
Definition hasQueryMark (href_ : jsstring) : bool :=
  existsb (N.eqb CH_QUESTION) (takeWhile notHash href_).

(** One of the five characters [escapeHtml] replaces. *)
Definition isHtmlSpecial (c : N) : bool :=
  ((c =? CH_AMP) || (c =? CH_LT) || (c =? CH_GT) || (c =? CH_DQUOTE) || (c =? CH_SQUOTE))%N.

(** One of the four characters that open or close a tag or an attribute
    value. *)
Definition isMarkupChar (c : N) : bool :=
  ((c =? CH_LT) || (c =? CH_GT) || (c =? CH_DQUOTE) || (c =? CH_SQUOTE))%N.

(** What [escapeHtml] writes for one character. *)
Definition escapeChar (c : N) : jsstring :=
  if (c =? CH_AMP)%N then js "&amp;"
  else if (c =? CH_LT)%N then js "&lt;"
  else if (c =? CH_GT)%N then js "&gt;"
  else if (c =? CH_DQUOTE)%N then js "&quot;"
  else if (c =? CH_SQUOTE)%N then js "&#39;"
  else [c].

(** Somewhere in [s], the character [a] is directly followed by [b]. *)
Fixpoint hasPair (a b : N) (s : jsstring) : bool :=
  match s with
  | [] => false
  | x :: s' =>
      match s' with
      | [] => false
      | y :: _ => (N.eqb x a && N.eqb y b) || hasPair a b s'
      end
  end.

(** ** A reference host for worked examples

    A POSIX host after the mock of the repository's renderer tests: URIs are
    records, the workspace has the single folder [/workspace], the
    highlighter knows JavaScript only.  The path functions join with a
    slash without normalising segments, and [toLowerCase] folds the ASCII
    capitals only; the examples below stay within what these agree with Node
    on. *)

Module RefHost.

Record RefUri : Type := mkRefUri {
  ru_scheme : jsstring;
  ru_path : jsstring;
  ru_query : jsstring;
  ru_fragment : jsstring
}.

Definition lowerAscii (c : N) : N := if isUpperAz c then (c + 32)%N else c.

Definition file (p : jsstring) : RefUri := mkRefUri (js "file") p [] [].

Definition parse (value : jsstring) : RefUri :=
  let parts := splitHref value in
  let notColon := fun c => negb (N.eqb c CH_COLON) in
  mkRefUri (map lowerAscii (takeWhile notColon (pathPart parts)))
           (tl (dropWhile notColon (pathPart parts)))
           (query parts) (fragment parts).

Definition toText (u : RefUri) : jsstring :=
  ru_scheme u ++ [CH_COLON]
  ++ (if jseqb (ru_scheme u) (js "file") then js "//" else [])
  ++ ru_path u
  ++ (if truthy (ru_query u) then CH_QUESTION :: ru_query u else [])
  ++ (if truthy (ru_fragment u) then CH_HASH :: ru_fragment u else []).

Definition notSlash (c : N) : bool := negb (N.eqb c CH_SLASH).
Definition isSlash (c : N) : bool := N.eqb c CH_SLASH.

(** The last component of a path, trailing slashes dropped. *)
Definition lastComponent (p : jsstring) : jsstring :=
  rev (takeWhile notSlash (dropWhile isSlash (rev p))).

Definition dirname (p : jsstring) : jsstring :=
  rev (tl (dropWhile notSlash (dropWhile isSlash (rev p)))).

(** [path.posix.extname]: from the last dot of the last component, unless
    that dot starts the component or the component is [..]. *)
Definition extname (p : jsstring) : jsstring :=
  let comp := lastComponent p in
  let notDot := fun c => negb (N.eqb c CH_DOT) in
  let extRev := takeWhile notDot (rev comp) in
  match dropWhile notDot (rev comp) with
  | [] => []
  | _ :: [] => []
  | _ :: _ :: _ =>
      if jseqb comp (js "..") then [] else CH_DOT :: rev extRev
  end.

Definition joinPaths (a b : jsstring) : jsstring := a ++ [CH_SLASH] ++ b.

(** The host with the given workspace folders. *)
Definition hostWith (folders : list RefUri) : Host := {|
  platform := Posix;
  Uri := RefUri;
  Uri_file := file;
  Uri_parse := parse;
  Uri_with := fun u q f => mkRefUri (ru_scheme u) (ru_path u) q f;
  Uri_scheme := ru_scheme;
  Uri_fsPath := ru_path;
  Uri_toString := toText;
  workspace_workspaceFolders := folders;
  path_join := joinPaths;
  path_resolve := joinPaths;
  path_dirname := dirname;
  path_extname := extname;
  toLowerCase := map lowerAscii;
  hljs_getLanguage := fun l => jseqb l (js "javascript") || jseqb l (js "js");
  hljs_highlight := fun code _ => escapeHtml code;
  md_unescapeAll := fun s => s;
  path_extname_empty := eq_refl;
  toLowerCase_empty := eq_refl
|}.

Definition refHost : Host :=
  Eval cbv beta delta [hostWith] in hostWith [file (js "/workspace")].
#[export] Existing Instance refHost.

(** The same host with no workspace folder open. *)
Definition bareHost : Host := Eval cbv beta delta [hostWith] in hostWith [].

(** The context of the renderer tests: the document [/workspace/docs/note.md],
    a webview that prefixes [vscode-webview:], every feature enabled. *)
Definition testContext (mermaid : bool) : RenderContext :=
  mkRenderContext
    (file (js "/workspace/docs/note.md"))
    (fun u => mkRefUri (js "vscode-webview") (toText u) [] [])
    (Some (file (js "/workspace")))
    (mkRendererSettings 0 mermaid true true true).

(** A context on [bareHost]: a document outside any workspace folder. *)
Definition bareContext : @RenderContext bareHost :=
  @mkRenderContext bareHost
    (file (js "/tmp/note.md"))
    (fun u => mkRefUri (js "vscode-webview") (toText u) [] [])
    None
    (mkRendererSettings 0 true true true true).

Definition lf : jsstring := [10%N].

(** The [link_open] token of a link with the given href. *)
Definition linkToken (href_ : jsstring) : Token := mkToken [(js "href", href_)] [] [].

(** The fence tokens of the spec's two scenarios. *)
Definition mermaidToken : Token :=
  mkToken [] (js "mermaid") (js "graph TD;" ++ lf ++ js "A-->B;" ++ lf).

Definition scriptToken : Token :=
  mkToken [] (js "unknown") (js "<script>alert('xss')</script>" ++ lf).

Definition payload (n : N) : RenderPayload := mkRenderPayload [n] light (js "note.md").

End RefHost.

(** ** The image rule and the click handler of the webview *)

Section ImageRule.

Context {H : Host}.

(** The [image] rule (extension.ts, lines 178-198): the token as the rule
    leaves it, before markdown-it's default image rule writes the tag. *)
Definition image (context : RenderContext) (token : Token) : Token :=
  let originalSource := orEmpty (attrGet token (js "src")) in
  let rewrittenSource := rewriteImageSource originalSource context in
  let token := attrSet token (js "src") rewrittenSource in
  attrSet token (js "loading") (js "lazy").

End ImageRule.

(** [a || b] for a string [a] that may be null: [b] when [a] is null or
    empty. *)
Definition orElse (a : option jsstring) (b : jsstring) : jsstring :=
  match a with
  | Some (c :: s) => c :: s
  | _ => b
  end.

(** The click listener of media/preview.js (lines 42-67) on an anchor with
    the given attributes ([getAttribute] reads the first attribute of a name;
    [closest("a[href]")] needs the anchor to have an [href]): the message it
    posts to the extension, if any. *)
Definition clickLink (anchor : list (jsstring * jsstring)) : option WebviewMessage :=
  match attrsGet (js "href") anchor with
  | None => None
  | Some _ =>
      let href_ := orElse (attrsGet (js "href") anchor) [] in
      if negb (truthy href_) || startsWith [CH_HASH] href_ then None
      else
        let sourceDoc := orElse (attrsGet (js "data-source-doc") anchor) [] in
        let originalHref := orElse (attrsGet (js "data-original-href") anchor) href_ in
        Some (MsgOpenLink originalHref sourceDoc)
  end.

(** ** Navigation (PreviewPanel.ts)

    What the navigation handler asks of the editor beyond the renderer's
    host: whether [vscode.Uri.parse] throws on a text (the handler catches it
    in two places), the workspace folder that owns a document, and
    [uri.with({ fragment })]. *)

Class NavHost {H : Host} : Type := {
  Uri_parse_throws : jsstring -> bool;
  workspace_getWorkspaceFolder : Uri -> option Uri;
  Uri_withFragment : Uri -> jsstring -> Uri
}.

(** What a call returns, or that it threw. *)
Inductive Outcome (A : Type) : Type :=
| Returned (a : A)
| Thrown.

Arguments Returned {A} a.
Arguments Thrown {A}.

Module PreviewPanel.

Section Navigation.

Context {H : Host} {NH : NavHost}.

(** [hasUriScheme] (PreviewPanel.ts, lines 417-419). *)
Definition hasUriScheme (value : jsstring) : bool :=
  regexTest RE_URI_SCHEME value.

(** [isExternalHref] of PreviewPanel.ts (lines 400-415): the narrow test of
    the navigation handler. *)
Definition isExternalHref (href_ : jsstring) : bool :=
  if isLikelyWindowsAbsolutePath href_ then false
  else if negb (hasUriScheme href_) then false
  else if Uri_parse_throws href_ then false
  else
    let parsedUri := Uri_parse href_ in
    jseqb (Uri_scheme parsedUri) (js "http")
    || jseqb (Uri_scheme parsedUri) (js "https")
    || jseqb (Uri_scheme parsedUri) (js "mailto").

(** [parseSourceDocumentUri] (PreviewPanel.ts, lines 333-343). *)
Definition parseSourceDocumentUri (value : jsstring) : option Uri :=
  if negb (truthy value) then None
  else if Uri_parse_throws value then None
  else Some (Uri_parse value).

(** [resolveFromWorkspaceRoot] (PreviewPanel.ts, lines 377-386). *)
Definition resolveFromWorkspaceRoot (pathFromRoot : jsstring) (sourceDocumentUri : Uri)
  : option jsstring :=
  let workspaceFolder_ :=
    nullish (workspace_getWorkspaceFolder sourceDocumentUri)
            (hd_error workspace_workspaceFolders) in
  match workspaceFolder_ with
  | None => None
  | Some folder =>
      let normalizedPath := dropWhile clsPathSep pathFromRoot in
      Some (path_join (Uri_fsPath folder) normalizedPath)
  end.

(** [resolveLocalUri] (PreviewPanel.ts, lines 345-375).  Its [splitHref] is
    the renderer's, word for word.  The parse of the scheme branch is not
    caught. *)
Definition resolveLocalUri (rawHref : jsstring) (sourceDocumentUri : Uri)
  : Outcome (option Uri) :=
  let parts := splitHref rawHref in
  let pathPart_ := pathPart parts in
  if negb (truthy pathPart_) then Returned None
  else if path_isAbsolute platform pathPart_ then
    Returned (Some (Uri_with (Uri_file pathPart_) (query parts) (fragment parts)))
  else if hasUriScheme pathPart_ then
    if Uri_parse_throws rawHref then Thrown
    else
      let parsedUri := Uri_parse rawHref in
      if jseqb (Uri_scheme parsedUri) (js "file") then Returned (Some parsedUri)
      else Returned None
  else
    let resolvedPath :=
      if startsWith [CH_SLASH] pathPart_ || startsWith [CH_BACKSLASH] pathPart_
      then resolveFromWorkspaceRoot pathPart_ sourceDocumentUri
      else Some (path_resolve (path_dirname (Uri_fsPath sourceDocumentUri)) pathPart_) in
    match resolvedPath with
    | None => Returned None
    | Some p =>
        if negb (truthy p) then Returned None
        else Returned (Some (Uri_with (Uri_file p) (query parts) (fragment parts)))
    end.

(** What [handleOpenLink] asks the editor to do.  The two opens of a local
    target run inside the handler's [try]: if the editor rejects one, the
    handler shows a warning instead. *)
Inductive LinkAction : Type :=
| NoAction
| OpenExternal (uri : Uri)
| OpenMarkdownDocument (uri : Uri)
| OpenWithDefaultHandler (uri : Uri).

(** [handleOpenLink] (PreviewPanel.ts, lines 204-240), up to the call into
    the editor. *)
Definition handleOpenLink (currentDocumentUri : Uri) (rawHref sourceDoc : jsstring)
  : Outcome LinkAction :=
  if negb (truthy rawHref) || startsWith [CH_HASH] rawHref then Returned NoAction
  else if isExternalHref rawHref then Returned (OpenExternal (Uri_parse rawHref))
  else
    let sourceDocumentUri :=
      match parseSourceDocumentUri sourceDoc with
      | Some u => u
      | None => currentDocumentUri
      end in
    match resolveLocalUri rawHref sourceDocumentUri with
    | Thrown => Thrown
    | Returned None => Returned NoAction
    | Returned (Some targetUri) =>
        let extension := toLowerCase (path_extname (Uri_fsPath targetUri)) in
        if MARKDOWN_EXTENSIONS_has extension
        then Returned (OpenMarkdownDocument (Uri_withFragment targetUri []))
        else Returned (OpenWithDefaultHandler targetUri)
    end.

End Navigation.

(** *** The render timer

    The editor's timers are a list of armed handles, each with its delay;
    [setTimeout] arms a fresh handle, [clearTimeout] disarms one. *)

Record TimerState : Type := mkTimerState {
  renderTimer : option nat;
  armedTimers : list (nat * Z);
  nextHandle : nat;
  rendersRun : nat
}.

Definition clearTimeout (handle : nat) (armed : list (nat * Z)) : list (nat * Z) :=
  filter (fun t => negb (Nat.eqb (fst t) handle)) armed.

(** [scheduleRender] (PreviewPanel.ts, lines 131-142) with the configured
    [autoUpdateDebounceMs]. *)
Definition scheduleRender (debounceMs : Z) (st : TimerState) : TimerState :=
  let st1 :=
    match renderTimer st with
    | Some t => mkTimerState None (clearTimeout t (armedTimers st)) (nextHandle st) (rendersRun st)
    | None => st
    end in
  let delay := Z.max 0 debounceMs in
  mkTimerState (Some (nextHandle st1))
               ((nextHandle st1, delay) :: armedTimers st1)
               (S (nextHandle st1))
               (rendersRun st1).

(** The callback of the timer [scheduleRender] arms: it forgets the handle
    and renders. *)
Definition timerCallback (st : TimerState) : TimerState :=
  mkTimerState None (armedTimers st) (nextHandle st) (S (rendersRun st)).

(** The editor fires the armed timer [handle], if it is still armed. *)
Definition fireTimer (handle : nat) (st : TimerState) : TimerState :=
  if existsb (fun t => Nat.eqb (fst t) handle) (armedTimers st)
  then timerCallback (mkTimerState (renderTimer st) (clearTimeout handle (armedTimers st))
                                   (nextHandle st) (rendersRun st))
  else st.

(** The timer part of [dispose] (PreviewPanel.ts, lines 112-124). *)
Definition disposeTimer (st : TimerState) : TimerState :=
  match renderTimer st with
  | Some t => mkTimerState None (clearTimeout t (armedTimers st)) (nextHandle st) (rendersRun st)
  | None => st
  end.

Inductive TimerEvent : Type :=
| Schedule (debounceMs : Z)
| Fire (handle : nat)
| Dispose.

Definition timerStep (st : TimerState) (e : TimerEvent) : TimerState :=
  match e with
  | Schedule d => scheduleRender d st
  | Fire h => fireTimer h st
  | Dispose => disposeTimer st
  end.

Definition timerRun (st : TimerState) (events : list TimerEvent) : TimerState :=
  fold_left timerStep events st.

(** A session before its constructor schedules the first render. *)
Definition noTimer : TimerState := mkTimerState None [] 0 0.

Definition isSchedule (e : TimerEvent) : bool :=
  match e with Schedule _ => true | _ => false end.

(** *** The panel slot

    [PreviewPanel.currentPanelInstance] and the webview panels the editor
    holds open, by number. *)

Record PanelWorld : Type := mkPanelWorld {
  currentPanelInstance : option (nat * jsstring);
  openPanels : list nat;
  nextPanel : nat
}.

(** [createOrShow] (PreviewPanel.ts, lines 41-66) for a document given by
    its address: an existing panel is revealed and retargeted, else a panel
    is created. *)
Definition createOrShow (document : jsstring) (w : PanelWorld) : PanelWorld :=
  match currentPanelInstance w with
  | Some (panel, _) => mkPanelWorld (Some (panel, document)) (openPanels w) (nextPanel w)
  | None =>
      mkPanelWorld (Some (nextPanel w, document)) (nextPanel w :: openPanels w)
                   (S (nextPanel w))
  end.

(** The user closes the panel [panel]: the editor drops it and runs the
    [onDidDispose] listener of the session that owns it, which is [dispose]
    (PreviewPanel.ts, lines 112-124). *)
Definition closePanel (panel : nat) (w : PanelWorld) : PanelWorld :=
  if existsb (Nat.eqb panel) (openPanels w)
  then mkPanelWorld None (filter (fun p => negb (Nat.eqb p panel)) (openPanels w)) (nextPanel w)
  else w.

Inductive PanelEvent : Type :=
| CreateOrShow (document : jsstring)
| ClosePanel (panel : nat).

Definition panelStep (w : PanelWorld) (e : PanelEvent) : PanelWorld :=
  match e with
  | CreateOrShow d => createOrShow d w
  | ClosePanel p => closePanel p w
  end.

Definition panelRun (w : PanelWorld) (events : list PanelEvent) : PanelWorld :=
  fold_left panelStep events w.

Definition noPanel : PanelWorld := mkPanelWorld None [] 0.

End PreviewPanel.

(** The navigation host of the worked examples: [Uri.parse] never throws,
    and every document belongs to the first workspace folder. *)
Module RefNav.

Definition getWorkspaceFolder (_ : RefHost.RefUri) : option RefHost.RefUri :=
  Some (RefHost.file (js "/workspace")).

Definition withFragment (u : RefHost.RefUri) (f : jsstring) : RefHost.RefUri :=
  RefHost.mkRefUri (RefHost.ru_scheme u) (RefHost.ru_path u) (RefHost.ru_query u) f.

#[export] Instance refNav : @NavHost RefHost.refHost :=
  @Build_NavHost RefHost.refHost (fun _ => false) getWorkspaceFolder withFragment.

End RefNav.

(** ** The whole session (PreviewPanel.ts) and the webview's theme *)

Module PreviewSession.

Import PreviewPanel.

(** A session: the address of the document it shows, its timer and its
    handshake with the webview. *)
Record FullSession : Type := mkFullSession {
  currentDocument : jsstring;
  timer : TimerState;
  handshake : Session
}.

(** [scheduleRender] on the session; [debounceMs] is the configured
    [autoUpdateDebounceMs] as read at the call. *)
Definition scheduleRenderOf (debounceMs : Z) (s : FullSession) : FullSession :=
  mkFullSession (currentDocument s) (scheduleRender debounceMs (timer s)) (handshake s).

(** [setDocument] (PreviewPanel.ts, lines 126-129). *)
Definition setDocument (debounceMs : Z) (document : jsstring) (s : FullSession)
  : FullSession :=
  scheduleRenderOf debounceMs (mkFullSession document (timer s) (handshake s)).

(** [handleTextDocumentChange] (PreviewPanel.ts, lines 92-98): documents
    are compared by the text of their addresses. *)
Definition handleTextDocumentChange (debounceMs : Z) (document : jsstring) (s : FullSession)
  : FullSession :=
  if negb (jseqb document (currentDocument s)) then s else scheduleRenderOf debounceMs s.

(** [handleActiveEditorChange] (PreviewPanel.ts, lines 100-106): the editor,
    if any, by the address and the language of its document. *)
Definition handleActiveEditorChange (debounceMs : Z) (editor : option (jsstring * jsstring))
    (s : FullSession) : FullSession :=
  match editor with
  | None => s
  | Some (document, languageId) =>
      if negb (jseqb languageId (js "markdown")) then s
      else setDocument debounceMs document s
  end.

(** [handleThemeChange] (PreviewPanel.ts, lines 108-110). *)
Definition handleThemeChange (debounceMs : Z) (s : FullSession) : FullSession :=
  scheduleRenderOf debounceMs s.

(** [renderNow] (PreviewPanel.ts, lines 144-164): the session after it and
    what it posts.  [world] is the payload the editor's state of the moment
    (the text of the document, the theme, the settings) gives for a
    document. *)
Definition renderNow (world : jsstring -> RenderPayload) (s : FullSession)
  : FullSession * list RenderPayload :=
  let (h, posted) := postRenderPayload (handshake s) (world (currentDocument s)) in
  (mkFullSession (currentDocument s) (timer s) h, posted).

(** The editor fires the timer [handle], if it is still armed: the callback
    forgets the handle and renders. *)
Definition timerFires (handle : nat) (world : jsstring -> RenderPayload) (s : FullSession)
  : FullSession * list RenderPayload :=
  if existsb (fun t => Nat.eqb (fst t) handle) (armedTimers (timer s))
  then renderNow world (mkFullSession (currentDocument s) (fireTimer handle (timer s))
                                      (handshake s))
  else (s, []).

(** What the editor tells a session.  [LinkedDocumentShown] is the end of
    [handleOpenLink] (PreviewPanel.ts, line 231): the Markdown document a
    link opened becomes the document of the session. *)
Inductive EditorEvent : Type :=
| TextDocumentChanged (document : jsstring)
| ActiveEditorChanged (editor : option (jsstring * jsstring))
| ThemeChanged
| LinkedDocumentShown (document : jsstring).

Definition editorStep (s : FullSession) (e : Z * EditorEvent) : FullSession :=
  match e with
  | (debounceMs, TextDocumentChanged d) => handleTextDocumentChange debounceMs d s
  | (debounceMs, ActiveEditorChanged ed) => handleActiveEditorChange debounceMs ed s
  | (debounceMs, ThemeChanged) => handleThemeChange debounceMs s
  | (debounceMs, LinkedDocumentShown d) => setDocument debounceMs d s
  end.

Definition editorRun (s : FullSession) (events : list (Z * EditorEvent)) : FullSession :=
  fold_left editorStep events s.

(** Everything that reaches a session: the editor's events (each with the
    debounce configured at that moment), its timers and the messages of the
    webview. *)
Inductive SessionEvent : Type :=
| FromEditor (debounceMs : Z) (e : EditorEvent)
| TimerFired (handle : nat) (world : jsstring -> RenderPayload)
| FromWebview (message : WebviewMessage).

Definition sessionStep (s : FullSession) (e : SessionEvent)
  : FullSession * list RenderPayload :=
  match e with
  | FromEditor debounceMs e => (editorStep s (debounceMs, e), [])
  | TimerFired handle world => timerFires handle world s
  | FromWebview message =>
      let (h, posted) := handleMessage (handshake s) message in
      (mkFullSession (currentDocument s) (timer s) h, posted)
  end.

(** The session after a sequence of events and everything posted to the
    webview, in order. *)
Fixpoint sessionRun (s : FullSession) (events : list SessionEvent)
  : FullSession * list RenderPayload :=
  match events with
  | [] => (s, [])
  | e :: events' =>
      let (s1, out1) := sessionStep s e in
      let (s2, out2) := sessionRun s1 events' in
      (s2, out1 ++ out2)
  end.

(** The constructor (PreviewPanel.ts, lines 77-90): the session of a
    document, with its first render scheduled. *)
Definition construct (debounceMs : Z) (document : jsstring) : FullSession :=
  scheduleRenderOf debounceMs (mkFullSession document noTimer newSession).

(** The document an event makes the session's own, if any. *)
Definition shownBy (e : Z * EditorEvent) : option jsstring :=
  match snd e with
  | ActiveEditorChanged (Some (d, languageId)) =>
      if jseqb languageId (js "markdown") then Some d else None
  | LinkedDocumentShown d => Some d
  | _ => None
  end.

End PreviewSession.

(** The class list of the webview's body: a list of distinct names, as a
    DOMTokenList keeps them. *)
Definition classList_remove (names : list jsstring) (classes : list jsstring)
  : list jsstring :=
  filter (fun c => negb (existsb (jseqb c) names)) classes.

Definition classList_add (name : jsstring) (classes : list jsstring) : list jsstring :=
  if existsb (jseqb name) classes then classes else classes ++ [name].

(** [applyTheme] (media/preview.js, lines 11-14) on the body's classes. *)
Definition applyTheme (theme_ : jsstring) (classes : list jsstring) : list jsstring :=
  classList_add (if jseqb theme_ (js "dark") then js "theme-dark" else js "theme-light")
                (classList_remove [js "theme-light"; js "theme-dark"] classes).

Definition isThemeClass (c : jsstring) : bool :=
  jseqb c (js "theme-light") || jseqb c (js "theme-dark").

(** A second host for worked examples: the reference host, with a [parse]
    that drops [file:] and the two slashes after it, as the mock of the
    renderer tests does, so that the address of a file parses back to the
    file. *)
Module MockHost.

Import RefHost.

Definition parse (value : jsstring) : RefUri :=
  let parts := splitHref value in
  let notColon := fun c => negb (N.eqb c CH_COLON) in
  let scheme := map lowerAscii (takeWhile notColon (pathPart parts)) in
  let afterColon := tl (dropWhile notColon (pathPart parts)) in
  if jseqb scheme (js "file")
  then mkRefUri scheme
         (if startsWith (js "//") afterColon then skipn 2 afterColon else afterColon)
         (query parts) (fragment parts)
  else mkRefUri scheme afterColon (query parts) (fragment parts).

Definition mockHost : Host := {|
  platform := Posix;
  Uri := RefUri;
  Uri_file := file;
  Uri_parse := parse;
  Uri_with := fun u q f => mkRefUri (ru_scheme u) (ru_path u) q f;
  Uri_scheme := ru_scheme;
  Uri_fsPath := ru_path;
  Uri_toString := toText;
  workspace_workspaceFolders := [file (js "/workspace")];
  path_join := joinPaths;
  path_resolve := joinPaths;
  path_dirname := dirname;
  path_extname := extname;
  toLowerCase := map lowerAscii;
  hljs_getLanguage := fun l => jseqb l (js "javascript") || jseqb l (js "js");
  hljs_highlight := fun code _ => escapeHtml code;
  md_unescapeAll := fun s => s;
  path_extname_empty := eq_refl;
  toLowerCase_empty := eq_refl
|}.

Definition mockNav : @NavHost mockHost :=
  @Build_NavHost mockHost (fun _ => false) RefNav.getWorkspaceFolder RefNav.withFragment.

Definition mockContext : @RenderContext mockHost :=
  @mkRenderContext mockHost
    (file (js "/workspace/docs/note.md"))
    (fun u => mkRefUri (js "vscode-webview") (toText u) [] [])
    (Some (file (js "/workspace")))
    (mkRendererSettings 0 true true true true).

End MockHost.

(* ================================================================== *)
(** * Part II: properties *)
(* ================================================================== *)

(** ** Strings *)

Lemma jseqb_refl (a : jsstring) : jseqb a a = true.
Proof.
  induction a as [|x a IH]; simpl; [reflexivity|].
  now rewrite N.eqb_refl.
Qed.

Lemma jseqb_eq (a b : jsstring) : jseqb a b = true <-> a = b.
Proof.
  split.
  - revert b; induction a as [|x a IH]; intros [|y b]; simpl; try discriminate; auto.
    intros E. apply andb_true_iff in E as [E1 E2].
    apply N.eqb_eq in E1. f_equal; auto.
  - intros ->. apply jseqb_refl.
Qed.

Lemma takeWhile_dropWhile (p : N -> bool) (s : jsstring) :
  takeWhile p s ++ dropWhile p s = s.
Proof.
  induction s as [|x s IH]; simpl; [reflexivity|].
  destruct (p x); simpl; [now rewrite IH | reflexivity].
Qed.

Lemma dropWhile_head (p : N -> bool) (s : jsstring) :
  match dropWhile p s with
  | [] => True
  | x :: _ => p x = false
  end.
Proof.
  induction s as [|x s IH]; simpl; [exact I|].
  destruct (p x) eqn:E; [exact IH | exact E].
Qed.

Lemma takeWhile_all (p : N -> bool) (s : jsstring) :
  forallb p (takeWhile p s) = true.
Proof.
  induction s as [|x s IH]; simpl; [reflexivity|].
  destruct (p x) eqn:E; simpl; [now rewrite E | reflexivity].
Qed.

Lemma firstn_takeWhile (p : N -> bool) (s : jsstring) :
  firstn (length (takeWhile p s)) s = takeWhile p s.
Proof.
  induction s as [|x s IH]; simpl; [reflexivity|].
  destruct (p x); simpl; [now rewrite IH | reflexivity].
Qed.

Lemma skipn_takeWhile (p : N -> bool) (s : jsstring) :
  skipn (length (takeWhile p s)) s = dropWhile p s.
Proof.
  induction s as [|x s IH]; simpl; [reflexivity|].
  destruct (p x); simpl; [exact IH | reflexivity].
Qed.

Lemma takeWhile_length_le (p : N -> bool) (s : jsstring) :
  (length (takeWhile p s) <= length s)%nat.
Proof.
  induction s as [|x s IH]; simpl; [lia|].
  destruct (p x); simpl; lia.
Qed.

Lemma existsb_dropWhile (c : N) (s : jsstring) :
  existsb (N.eqb c) s = truthy (dropWhile (fun x => negb (N.eqb x c)) s).
Proof.
  induction s as [|x s IH]; simpl; [reflexivity|].
  rewrite (N.eqb_sym c x). destruct (N.eqb x c); simpl; [reflexivity | exact IH].
Qed.

(** [indexOf] finds the length of the longest prefix without the character,
    or nothing. *)
Lemma indexOf_spec (c : N) (s : jsstring) :
  indexOf c s =
  if existsb (N.eqb c) s
  then Z.of_nat (length (takeWhile (fun x => negb (N.eqb x c)) s))
  else (-1)%Z.
Proof.
  induction s as [|x s IH]; simpl; [reflexivity|].
  rewrite (N.eqb_sym c x). destruct (N.eqb x c); simpl; [reflexivity|].
  rewrite IH. destruct (existsb (N.eqb c) s).
  - destruct (Z.ltb_spec (Z.of_nat (length (takeWhile (fun x0 => negb (N.eqb x0 c)) s))) 0); lia.
  - reflexivity.
Qed.

Lemma slice_prefix (s : jsstring) (n : nat) :
  (n <= length s)%nat -> slice s 0 (Z.of_nat n) = firstn n s.
Proof.
  intros Hn. unfold slice, clampIndex. simpl.
  destruct (Z.ltb_spec (Z.of_nat n) 0); [lia|].
  rewrite Z.min_l by lia. rewrite Z.min_l by lia.
  simpl. now rewrite Z.sub_0_r, Nat2Z.id.
Qed.

Lemma sliceFrom_suffix (s : jsstring) (n : nat) :
  (n <= length s)%nat -> sliceFrom s (Z.of_nat n) = skipn n s.
Proof.
  intros Hn. unfold sliceFrom, slice, clampIndex.
  destruct (Z.ltb_spec (Z.of_nat n) 0); [lia|].
  destruct (Z.ltb_spec (Z.of_nat (length s)) 0); [lia|].
  cbv zeta.
  replace (Z.min (Z.of_nat (length s)) (Z.of_nat (length s))) with (Z.of_nat (length s)) by lia.
  rewrite Z.min_l by lia. rewrite Nat2Z.id.
  apply firstn_all2. rewrite length_skipn. lia.
Qed.

(** The two pieces [splitHref] cuts a string into at the first [c]. *)
Lemma cut_at_first (c : N) (s : jsstring) :
  let i := indexOf c s in
  (if (i >=? 0)%Z then slice s 0 i else s) = takeWhile (fun x => negb (N.eqb x c)) s
  /\ (if (i >=? 0)%Z then sliceFrom s (i + 1) else []) =
     tl (dropWhile (fun x => negb (N.eqb x c)) s).
Proof.
  cbv zeta. rewrite indexOf_spec.
  set (p := fun x => negb (N.eqb x c)).
  pose proof (takeWhile_length_le p s) as Hle.
  pose proof (takeWhile_dropWhile p s) as Happ.
  pose proof (skipn_takeWhile p s) as Hskip.
  rewrite existsb_dropWhile. fold p.
  destruct (dropWhile p s) as [|d ds] eqn:Hd; simpl truthy; cbv iota.
  - simpl. rewrite app_nil_r in Happ. split; [now rewrite Happ | reflexivity].
  - assert (Hlt : (length (takeWhile p s) < length s)%nat).
    { rewrite <- Happ at 2. rewrite length_app. simpl. lia. }
    destruct (Z.geb_spec (Z.of_nat (length (takeWhile p s))) 0); [|lia].
    split.
    + rewrite slice_prefix by lia. apply firstn_takeWhile.
    + replace (Z.of_nat (length (takeWhile p s)) + 1)%Z
        with (Z.of_nat (S (length (takeWhile p s)))) by lia.
      rewrite sliceFrom_suffix by lia.
      change (S (length (takeWhile p s))) with (1 + length (takeWhile p s))%nat.
      rewrite <- skipn_skipn. rewrite Hskip. reflexivity.
Qed.

(** [splitHref] in closed form: the path part runs to the first [?] or [#],
    the query from there to the first [#], the fragment after it. *)
Lemma splitHref_eq (href_ : jsstring) :
  splitHref href_ =
  mkHrefParts (takeWhile notQuestion (takeWhile notHash href_))
              (tl (dropWhile notQuestion (takeWhile notHash href_)))
              (tl (dropWhile notHash href_)).
Proof.
  unfold splitHref. cbv zeta.
  destruct (cut_at_first CH_HASH href_) as [E1 E2]. cbv zeta in E1, E2.
  rewrite E2, E1.
  destruct (cut_at_first CH_QUESTION (takeWhile (fun x => negb (N.eqb x CH_HASH)) href_))
    as [E3 E4]. cbv zeta in E3, E4.
  rewrite E3, E4. reflexivity.
Qed.

(** ** Splitting and reassembling an href *)

Lemma mark_tail (c : N) (s : jsstring) :
  let d := dropWhile (fun x => negb (N.eqb x c)) s in
  (if truthy d then c :: tl d else []) = d.
Proof.
  cbv zeta. pose proof (dropWhile_head (fun x => negb (N.eqb x c)) s) as Hd.
  destruct (dropWhile _ s) as [|d ds]; simpl; [reflexivity|].
  apply negb_false_iff, N.eqb_eq in Hd. now subst.
Qed.

(** An href is its path part, then [?] and the query when it has a [?]
    before its first [#], then [#] and the fragment when it has a [#]. *)
Lemma splitHref_decomposition (href_ : jsstring) :
  pathPart (splitHref href_)
  ++ (if hasQueryMark href_ then CH_QUESTION :: query (splitHref href_) else [])
  ++ (if hasFragmentMark href_ then CH_HASH :: fragment (splitHref href_) else [])
  = href_.
Proof.
  rewrite splitHref_eq. simpl.
  unfold hasQueryMark, hasFragmentMark. rewrite !existsb_dropWhile.
  pose proof (mark_tail CH_HASH href_) as Hf. cbv zeta in Hf.
  pose proof (mark_tail CH_QUESTION (takeWhile notHash href_)) as Hq. cbv zeta in Hq.
  unfold notHash, notQuestion in *.
  rewrite Hf, Hq, app_assoc, !takeWhile_dropWhile. reflexivity.
Qed.

Lemma app_cons_neq_self (A : Type) (l : list A) (x : A) (r : list A) : l <> l ++ x :: r.
Proof.
  intros E. apply (f_equal (@length A)) in E. rewrite length_app in E. simpl in E. lia.
Qed.

Lemma reassemble_cases (pp dq df : jsstring) :
  (dq = [] \/ exists q, dq = CH_QUESTION :: q) ->
  (df = [] \/ exists f, df = CH_HASH :: f) ->
  pp ++ (if truthy (tl dq) then CH_QUESTION :: tl dq else [])
     ++ (if truthy (tl df) then CH_HASH :: tl df else [])
  = pp ++ dq ++ df
  <-> (truthy dq = true -> tl dq <> []) /\ (truthy df = true -> tl df <> []).
Proof.
  intros [Hq | [q Hq]] [Hf | [f Hf]]; subst dq df;
    try destruct q as [|q0 q]; try destruct f as [|f0 f]; simpl; split.
  all: try (intros E; split; intros Ht; try discriminate Ht; try discriminate; exfalso;
            apply (f_equal (@length N)) in E;
            repeat (rewrite length_app in E; simpl in E); lia).
  all: intros [A B];
       first [ reflexivity
             | exfalso; apply A; reflexivity
             | exfalso; apply B; reflexivity ].
Qed.

(** C3 (as the spec states it, refuted): an href that ends in [#] loses the
    [#] when it is split and reassembled. *)
Lemma C3_reassembly_loses_empty_fragment :
  reassemble_spec (splitHref (js "a#")) <> js "a#".
Proof. vm_compute. discriminate. Qed.

(** C3 (amended): reassembling the parts with each delimiter put back
    whenever the href had it always yields the href; the spec's reassembly,
    which puts a delimiter back only before a non-empty part, yields the href
    exactly when no delimiter of the href is followed by an empty part. *)
Theorem C3_split_reassemble (href_ : jsstring) :
  pathPart (splitHref href_)
  ++ (if hasQueryMark href_ then CH_QUESTION :: query (splitHref href_) else [])
  ++ (if hasFragmentMark href_ then CH_HASH :: fragment (splitHref href_) else [])
  = href_
  /\ (reassemble_spec (splitHref href_) = href_ <->
      (hasQueryMark href_ = true -> query (splitHref href_) <> [])
      /\ (hasFragmentMark href_ = true -> fragment (splitHref href_) <> [])).
Proof.
  split; [apply splitHref_decomposition|].
  unfold reassemble_spec, hasQueryMark, hasFragmentMark.
  rewrite splitHref_eq, !existsb_dropWhile. simpl.
  pose proof (takeWhile_dropWhile notHash href_) as E1.
  pose proof (takeWhile_dropWhile notQuestion (takeWhile notHash href_)) as E2.
  change (fun x : N => negb (x =? CH_QUESTION)%N) with notQuestion.
  change (fun x : N => negb (x =? CH_HASH)%N) with notHash.
  pose proof (dropWhile_head notQuestion (takeWhile notHash href_)) as Hq.
  pose proof (dropWhile_head notHash href_) as Hf.
  rewrite <- E2, <- app_assoc in E1.
  set (pp := takeWhile notQuestion (takeWhile notHash href_)) in *.
  set (dq := dropWhile notQuestion (takeWhile notHash href_)) in *.
  set (df := dropWhile notHash href_) in *.
  rewrite <- E1.
  apply reassemble_cases.
  - destruct dq as [|d ds]; [now left | right].
    apply negb_false_iff, N.eqb_eq in Hq. subst d. now exists ds.
  - destruct df as [|d ds]; [now left | right].
    apply negb_false_iff, N.eqb_eq in Hf. subst d. now exists ds.
Qed.

(** The amended statement at hrefs that keep, and that lose, a delimiter. *)
Lemma C3_split_reassemble_witness :
  reassemble_spec (splitHref (js "docs/a.md?x=1#top")) = js "docs/a.md?x=1#top"
  /\ splitHref (js "docs/a.md?x=1#top") = mkHrefParts (js "docs/a.md") (js "x=1") (js "top").
Proof.
  split; [|reflexivity].
  apply (proj2 (C3_split_reassemble (js "docs/a.md?x=1#top"))).
  split; intros _; vm_compute; discriminate.
Defined.

(** ** The regular expressions, in words *)

Lemma regexTest_star (cls : N -> bool) (rest : list RegexItem) (s : jsstring) :
  regexTest (Star cls :: rest) s =
  regexTest rest s ||
  match s with
  | [] => false
  | c :: s' => cls c && regexTest (Star cls :: rest) s'
  end.
Proof. destruct s; reflexivity. Qed.

(** A starred class matches some run of its characters, and the rest of the
    pattern matches what follows the run. *)
Lemma regexTest_star_spec (cls : N -> bool) (rest : list RegexItem) (s : jsstring) :
  regexTest (Star cls :: rest) s = true <->
  exists mid t, s = mid ++ t /\ forallb cls mid = true /\ regexTest rest t = true.
Proof.
  split.
  - induction s as [|c s IH]; rewrite regexTest_star; intros E.
    + rewrite orb_false_r in E. now exists [], [].
    + apply orb_true_iff in E as [E | E].
      * now exists [], (c :: s).
      * apply andb_true_iff in E as [Ec Es].
        destruct (IH Es) as (mid & t & -> & Hmid & Ht).
        exists (c :: mid), t. simpl. rewrite Ec. auto.
  - intros (mid & t & -> & Hmid & Ht).
    induction mid as [|c mid IH]; simpl app; rewrite regexTest_star.
    + now rewrite Ht.
    + simpl in Hmid. apply andb_true_iff in Hmid as [Hc Hmid].
      rewrite Hc, (IH Hmid). apply orb_true_r.
Qed.

(** [/^[a-z][a-z0-9+.-]*:/iu] matches a letter, a run of scheme characters
    and a colon. *)
Lemma RE_URI_SCHEME_spec (s : jsstring) :
  regexTest RE_URI_SCHEME s = true <->
  exists X mid rest,
    s = X :: mid ++ CH_COLON :: rest
    /\ clsLetterIU X = true /\ forallb clsSchemeTailIU mid = true.
Proof.
  unfold RE_URI_SCHEME. split.
  - destruct s as [|X s]; [discriminate|].
    change (regexTest (One clsLetterIU :: ?r) (X :: s))
      with (clsLetterIU X && regexTest r s).
    intros E. apply andb_true_iff in E as [EX E].
    apply regexTest_star_spec in E as (mid & t & -> & Hmid & Ht).
    destruct t as [|c t]; [discriminate|]. simpl in Ht.
    rewrite andb_true_r in Ht. apply N.eqb_eq in Ht. subst c.
    now exists X, mid, t.
  - intros (X & mid & rest & -> & HX & Hmid).
    change (regexTest (One clsLetterIU :: ?r) (X :: ?s))
      with (clsLetterIU X && regexTest r s).
    rewrite HX. simpl andb.
    apply (proj2 (regexTest_star_spec clsSchemeTailIU [One (clsChar CH_COLON)]
                    (mid ++ CH_COLON :: rest))).
    exists mid, (CH_COLON :: rest). repeat split; auto.
Qed.

(** [/^[a-z]:[/\\]/iu] matches a letter, a colon and a separator. *)
Lemma isLikelyWindowsAbsolutePath_spec (s : jsstring) :
  isLikelyWindowsAbsolutePath s = true <->
  exists X sep rest,
    s = X :: CH_COLON :: sep :: rest
    /\ clsLetterIU X = true /\ clsPathSep sep = true.
Proof.
  unfold isLikelyWindowsAbsolutePath, RE_WINDOWS_ABSOLUTE. split.
  - destruct s as [|X [|c [|sep rest]]]; simpl; intros E;
      repeat rewrite ?andb_false_r in E; try discriminate.
    rewrite andb_true_r in E.
    apply andb_true_iff in E as [EX E]. apply andb_true_iff in E as [Ec Es].
    apply N.eqb_eq in Ec. subst c. now exists X, sep, rest.
  - intros (X & sep & rest & -> & HX & Hs). simpl. now rewrite HX, Hs.
Qed.

Lemma isAsciiLetter_clsLetterIU (c : N) : isAsciiLetter c = true -> clsLetterIU c = true.
Proof. unfold clsLetterIU. now intros ->. Qed.

Lemma clsLetterIU_notMark (c : N) :
  clsLetterIU c = true -> notHash c = true /\ notQuestion c = true.
Proof.
  intros E. unfold notHash, notQuestion.
  destruct (N.eqb_spec c CH_HASH) as [->|_]; [discriminate E|].
  destruct (N.eqb_spec c CH_QUESTION) as [->|_]; [discriminate E|]. auto.
Qed.

Lemma clsPathSep_notMark (c : N) :
  clsPathSep c = true -> notHash c = true /\ notQuestion c = true.
Proof.
  intros E. unfold notHash, notQuestion.
  destruct (N.eqb_spec c CH_HASH) as [->|_]; [discriminate E|].
  destruct (N.eqb_spec c CH_QUESTION) as [->|_]; [discriminate E|]. auto.
Qed.

(** ** The path part of an href *)

Lemma pathPart_eq (href_ : jsstring) :
  pathPart (splitHref href_) = takeWhile notQuestion (takeWhile notHash href_).
Proof. now rewrite splitHref_eq. Qed.

Lemma pathPart_cons (c : N) (s : jsstring) :
  notHash c = true -> notQuestion c = true ->
  pathPart (splitHref (c :: s)) = c :: pathPart (splitHref s).
Proof. intros Hh Hq. rewrite !pathPart_eq. simpl. now rewrite Hh; simpl; rewrite Hq. Qed.

Lemma pathPart_head (c : N) (s : jsstring) :
  pathPart (splitHref (c :: s)) = [] \/ exists t, pathPart (splitHref (c :: s)) = c :: t.
Proof.
  rewrite pathPart_eq. simpl. destruct (notHash c); simpl; [|now left].
  destruct (notQuestion c); [right; eauto | now left].
Qed.

Lemma pathPart_of_hash (href_ : jsstring) :
  startsWith [CH_HASH] href_ = true -> pathPart (splitHref href_) = [].
Proof.
  destruct href_ as [|c s]; cbn [startsWith]; [discriminate|].
  rewrite andb_true_r. intros E. apply N.eqb_eq in E. subst c.
  now rewrite pathPart_eq.
Qed.

Lemma pathPart_of_empty : pathPart (splitHref []) = [].
Proof. reflexivity. Qed.

(** A Windows drive path keeps its three leading characters in its path
    part. *)
Lemma isLikelyWindowsAbsolutePath_pathPart (href_ : jsstring) :
  isLikelyWindowsAbsolutePath href_ = true ->
  isLikelyWindowsAbsolutePath (pathPart (splitHref href_)) = true.
Proof.
  intros E. apply isLikelyWindowsAbsolutePath_spec in E
    as (X & sep & rest & -> & HX & Hs).
  destruct (clsLetterIU_notMark _ HX) as [HX1 HX2].
  destruct (clsPathSep_notMark _ Hs) as [Hs1 Hs2].
  rewrite !pathPart_cons by (auto || reflexivity).
  apply isLikelyWindowsAbsolutePath_spec. eauto 7.
Qed.

(** ** Token attributes *)

Lemma attrsGet_set_same (name value : jsstring) (l : list (jsstring * jsstring)) :
  attrsGet name (attrsSet name value l) = Some value.
Proof.
  induction l as [|[n v] l IH]; simpl.
  - now rewrite jseqb_refl.
  - destruct (jseqb n name) eqn:E; simpl.
    + now rewrite jseqb_refl.
    + now rewrite E.
Qed.

Lemma attrsGet_set_other (name other value : jsstring) (l : list (jsstring * jsstring)) :
  jseqb other name = false ->
  attrsGet name (attrsSet other value l) = attrsGet name l.
Proof.
  intros Hne. induction l as [|[n v] l IH]; simpl.
  - now rewrite Hne.
  - destruct (jseqb n other) eqn:E; simpl.
    + apply jseqb_eq in E. subst n. now rewrite Hne.
    + now rewrite IH.
Qed.

(** Reads an attribute back through the writes of [link_open]. *)
Ltac read_attr :=
  unfold attrGet, attrSet; cbn [attrs];
  repeat (rewrite attrsGet_set_other by reflexivity);
  rewrite ?attrsGet_set_same; try reflexivity.

Section Classification.

Context {H : Host}.
Variable context : RenderContext.

Lemma isExternalHref_nonempty (p : jsstring) : isExternalHref p = true -> truthy p = true.
Proof. destruct p; [discriminate | reflexivity]. Qed.

(** An href whose path part passes the external test is returned as it is,
    with kind [external]. *)
Lemma rewriteLinkHref_external (href_ : jsstring) :
  isExternalHref (pathPart (splitHref href_)) = true ->
  rewriteLinkHref href_ context = mkLinkRewriteResult href_ external.
Proof.
  intros E. pose proof (isExternalHref_nonempty _ E) as Hp.
  unfold rewriteLinkHref.
  destruct href_ as [|c s]; [discriminate Hp|]. cbn [truthy negb].
  destruct (startsWith [CH_HASH] (c :: s)) eqn:Hh.
  - rewrite (pathPart_of_hash _ Hh) in Hp. discriminate Hp.
  - cbv zeta. now rewrite Hp, E.
Qed.

(** An href whose path part fails the external test never gets the kind
    [external]. *)
Lemma rewriteLinkHref_not_external (href_ : jsstring) :
  isExternalHref (pathPart (splitHref href_)) = false ->
  kind (rewriteLinkHref href_ context) <> external.
Proof.
  intros E. unfold rewriteLinkHref. cbv zeta. rewrite E.
  destruct (negb (truthy href_)); [discriminate|].
  destruct (startsWith [CH_HASH] href_); [discriminate|].
  destruct (negb (truthy (pathPart (splitHref href_)))); [discriminate|].
  destruct (isMarkdownPath (pathPart (splitHref href_))); [discriminate|].
  destruct (resolveLocalFileUri _ _ _); discriminate.
Qed.

Lemma isMarkdownPath_nonempty (p : jsstring) : isMarkdownPath p = true -> truthy p = true.
Proof.
  destruct p; [|reflexivity]. unfold isMarkdownPath.
  now rewrite path_extname_empty, toLowerCase_empty.
Qed.

(** A local href whose path part has a Markdown extension is returned as it
    is, with kind [markdown]. *)
Lemma rewriteLinkHref_markdown (href_ : jsstring) :
  startsWith [CH_HASH] href_ = false ->
  isExternalHref (pathPart (splitHref href_)) = false ->
  isMarkdownPath (pathPart (splitHref href_)) = true ->
  rewriteLinkHref href_ context = mkLinkRewriteResult href_ markdown.
Proof.
  intros Hh He Hm. pose proof (isMarkdownPath_nonempty _ Hm) as Hp.
  unfold rewriteLinkHref. cbv zeta. rewrite Hh, He, Hm, Hp.
  destruct href_ as [|c s]; [discriminate Hp | reflexivity].
Qed.

(** What [link_open] leaves in the attributes it writes. *)
Lemma link_open_attrs (token : Token) :
  let originalHref := orEmpty (attrGet token (js "href")) in
  let r := rewriteLinkHref originalHref context in
  let t := link_open context token in
  attrGet t (js "href") = Some (href r)
  /\ attrGet t (js "data-original-href") = Some originalHref
  /\ attrGet t (js "data-source-doc") = Some (Uri_toString (document_uri context))
  /\ attrGet t (js "data-link-kind") = Some (LinkKind_text (kind r))
  /\ attrGet t (js "target")
     = Some (if LinkKind_eqb (kind r) external then js "_blank" else js "_self")
  /\ attrGet t (js "rel") = Some (js "noopener noreferrer").
Proof.
  cbv zeta. unfold link_open. cbv zeta.
  destruct (LinkKind_eqb _ external); repeat split; read_attr.
Qed.

End Classification.

(** ** Link classification: the claims *)

Section LinkClaims.

Context {H : Host}.
Variable context : RenderContext.


(** C2: an href whose path part matches the URI-scheme pattern and is not a
    Windows drive path is classified [external] and returned unchanged; an
    href that is a Windows drive path (a letter, a colon, a slash or a
    backslash) is never classified [external]. *)
Theorem C2_scheme_is_external_drive_path_is_not (href_ : jsstring) :
  (regexTest RE_URI_SCHEME (pathPart (splitHref href_)) = true ->
   isLikelyWindowsAbsolutePath (pathPart (splitHref href_)) = false ->
   rewriteLinkHref href_ context = mkLinkRewriteResult href_ external)
  /\ (isLikelyWindowsAbsolutePath href_ = true ->
      kind (rewriteLinkHref href_ context) <> external).
Proof.
  split.
  - intros Hs Hw. apply rewriteLinkHref_external.
    unfold isExternalHref. now rewrite Hw.
  - intros Hw. apply rewriteLinkHref_not_external.
    unfold isExternalHref.
    now rewrite (isLikelyWindowsAbsolutePath_pathPart _ Hw).
Qed.

(** C5: a local href (not a hash, not external) whose path part has the
    extension [.md] or [.markdown], whatever its case, is classified
    [markdown]; the rewriter returns the authored text, and the anchor gets
    that text as [href], [data-link-kind="markdown"] and [target="_self"]. *)
Theorem C5_markdown_link_kept_verbatim (href_ : jsstring) (token : Token) :
  startsWith [CH_HASH] href_ = false ->
  isExternalHref (pathPart (splitHref href_)) = false ->
  (toLowerCase (path_extname (pathPart (splitHref href_))) = js ".md"
   \/ toLowerCase (path_extname (pathPart (splitHref href_))) = js ".markdown") ->
  rewriteLinkHref href_ context = mkLinkRewriteResult href_ markdown
  /\ (attrGet token (js "href") = Some href_ ->
      attrGet (link_open context token) (js "href") = Some href_
      /\ attrGet (link_open context token) (js "data-link-kind") = Some (js "markdown")
      /\ attrGet (link_open context token) (js "target") = Some (js "_self")).
Proof.
  intros Hh He Hext.
  assert (Hm : isMarkdownPath (pathPart (splitHref href_)) = true).
  { unfold isMarkdownPath, MARKDOWN_EXTENSIONS_has.
    destruct Hext as [-> | ->]; reflexivity. }
  pose proof (rewriteLinkHref_markdown context _ Hh He Hm) as E.
  split; [exact E|]. intros Ha.
  destruct (link_open_attrs context token) as (A1 & _ & _ & A4 & A5 & _).
  rewrite Ha in A1, A4, A5. cbn [orEmpty] in A1, A4, A5.
  rewrite E in A1, A4, A5. auto.
Qed.

(** C6: the anchor [link_open] leaves carries [href] (the rewritten href),
    [data-original-href] (the authored href), [data-source-doc] (the address
    of the rendering document) and [data-link-kind], one of the four kinds;
    its [target] is [_blank] exactly when the kind is [external] and [_self]
    otherwise; its [rel] is always [noopener noreferrer]. *)
Theorem C6_anchor_attribute_contract (token : Token) :
  let originalHref := orEmpty (attrGet token (js "href")) in
  let r := rewriteLinkHref originalHref context in
  let t := link_open context token in
  attrGet t (js "href") = Some (href r)
  /\ attrGet t (js "data-original-href") = Some originalHref
  /\ attrGet t (js "data-source-doc") = Some (Uri_toString (document_uri context))
  /\ attrGet t (js "data-link-kind") = Some (LinkKind_text (kind r))
  /\ In (LinkKind_text (kind r)) [js "hash"; js "external"; js "markdown"; js "asset"]
  /\ (attrGet t (js "target") = Some (js "_blank") <-> kind r = external)
  /\ (attrGet t (js "target") = Some (js "_self") <-> kind r <> external)
  /\ attrGet t (js "rel") = Some (js "noopener noreferrer").
Proof.
  cbv zeta.
  destruct (link_open_attrs context token) as (A1 & A2 & A3 & A4 & A5 & A6).
  repeat split; auto.
  - destruct (kind _); simpl; auto.
  - rewrite A5. destruct (kind _); simpl; intros E; (reflexivity || discriminate E).
  - intros E. now rewrite A5, E.
  - rewrite A5. destruct (kind _); simpl; intros E; (discriminate || discriminate E).
  - rewrite A5. destruct (kind _); simpl; intros E; (reflexivity || now elim E).
Qed.

(** C10: a drive-relative Windows path (an ASCII letter, a colon, then a
    character that is neither slash nor backslash) passes the URI-scheme test
    and is classified [external]; its anchor is stamped
    [data-link-kind="external"] and [target="_blank"]. *)
Theorem C10_drive_relative_path_is_external
    (X c : N) (rest : jsstring) (token : Token) :
  isAsciiLetter X = true ->
  c <> CH_SLASH -> c <> CH_BACKSLASH ->
  rewriteLinkHref (X :: CH_COLON :: c :: rest) context
  = mkLinkRewriteResult (X :: CH_COLON :: c :: rest) external
  /\ (attrGet token (js "href") = Some (X :: CH_COLON :: c :: rest) ->
      attrGet (link_open context token) (js "data-link-kind") = Some (js "external")
      /\ attrGet (link_open context token) (js "target") = Some (js "_blank")).
Proof.
  intros HX Hc1 Hc2.
  assert (E : rewriteLinkHref (X :: CH_COLON :: c :: rest) context
              = mkLinkRewriteResult (X :: CH_COLON :: c :: rest) external).
  { apply rewriteLinkHref_external.
    pose proof (isAsciiLetter_clsLetterIU _ HX) as HL.
    destruct (clsLetterIU_notMark _ HL) as [HX1 HX2].
    rewrite !pathPart_cons by (auto || reflexivity).
    assert (Hsep : clsPathSep c = false).
    { unfold clsPathSep. apply orb_false_iff. split; now apply N.eqb_neq. }
    unfold isExternalHref.
    assert (Hw : isLikelyWindowsAbsolutePath
                   (X :: CH_COLON :: pathPart (splitHref (c :: rest))) = false).
    { unfold isLikelyWindowsAbsolutePath, RE_WINDOWS_ABSOLUTE.
      destruct (pathPart_head c rest) as [-> | [t ->]]; cbn [regexTest].
      - now rewrite !andb_false_r.
      - rewrite Hsep. now rewrite !andb_false_r. }
    rewrite Hw. apply RE_URI_SCHEME_spec.
    exists X, [], (pathPart (splitHref (c :: rest))). auto. }
  split; [exact E|]. intros Ha.
  destruct (link_open_attrs context token) as (_ & _ & _ & A4 & A5 & _).
  rewrite Ha in A4, A5. cbn [orEmpty] in A4, A5.
  rewrite E in A4, A5. auto.
Qed.

(** X4: an href that starts with [#] is classified [hash] and returned as it
    is, whatever the context. *)
Theorem X4_hash_link_passes_through (href_ : jsstring) :
  startsWith [CH_HASH] href_ = true ->
  rewriteLinkHref href_ context = mkLinkRewriteResult href_ hash.
Proof.
  intros Hh. unfold rewriteLinkHref. rewrite Hh.
  destruct href_; [discriminate Hh | reflexivity].
Qed.

(** X5: an image source whose path part is a [data:] URI or passes the
    external test is returned as it is. *)
Theorem X5_image_source_passes_through (source : jsstring) :
  isDataUri (pathPart (splitHref source)) = true
  \/ isExternalHref (pathPart (splitHref source)) = true ->
  rewriteImageSource source context = source.
Proof.
  intros E. unfold rewriteImageSource. cbv zeta.
  destruct (negb (truthy source)); [reflexivity|].
  destruct E as [-> | ->]; now rewrite ?orb_true_r.
Qed.

End LinkClaims.

(** ** Resolving local paths *)

Section Resolver.

Context {H : Host}.

Lemma path_isAbsolute_slash (pf : Platform) (rest : jsstring) :
  path_isAbsolute pf (CH_SLASH :: rest) = true.
Proof. destruct pf; reflexivity. Qed.

(** C4 (the code at the failing input): a path that begins with a slash is
    absolute for [path.isAbsolute] on either platform, so
    [resolveLocalFileUri] returns the file URI of the path as written, leading
    slashes included, before it reaches the workspace-root branch: nothing is
    stripped, no workspace root is consulted, and the resolution succeeds also
    when no root is known.  On Windows the same holds for a path that begins
    with a backslash. *)
Theorem C4_leading_slash_resolved_as_filesystem_path
    (rest : jsstring) (sourceDocumentUri : Uri) (workspaceFolder_ : option Uri) :
  resolveLocalFileUri (CH_SLASH :: rest) sourceDocumentUri workspaceFolder_
  = Some (Uri_with (Uri_file (CH_SLASH :: pathPart (splitHref rest)))
                   (query (splitHref (CH_SLASH :: rest)))
                   (fragment (splitHref (CH_SLASH :: rest))))
  /\ resolveLocalFileUri (CH_SLASH :: rest) sourceDocumentUri None <> None
  /\ (platform = Win32 ->
      resolveLocalFileUri (CH_BACKSLASH :: rest) sourceDocumentUri workspaceFolder_
      = Some (Uri_with (Uri_file (CH_BACKSLASH :: pathPart (splitHref rest)))
                       (query (splitHref (CH_BACKSLASH :: rest)))
                       (fragment (splitHref (CH_BACKSLASH :: rest))))).
Proof.
  assert (E : forall w, resolveLocalFileUri (CH_SLASH :: rest) sourceDocumentUri w
              = Some (Uri_with (Uri_file (CH_SLASH :: pathPart (splitHref rest)))
                               (query (splitHref (CH_SLASH :: rest)))
                               (fragment (splitHref (CH_SLASH :: rest))))).
  { intros w. unfold resolveLocalFileUri. cbv zeta.
    rewrite pathPart_cons by reflexivity. cbn [truthy negb].
    now rewrite path_isAbsolute_slash. }
  split; [apply E|]. split; [rewrite E; discriminate|].
  intros Hw. unfold resolveLocalFileUri. cbv zeta.
  rewrite pathPart_cons by reflexivity. cbn [truthy negb].
  now rewrite Hw.
Qed.

(** X2: where the workspace-root branch is reached (on POSIX, a path that
    begins with a backslash), the resolver strips every leading separator and
    joins the rest with the root of the document's folder, else of the first
    folder; it fails exactly when that root is missing or empty. *)
Theorem X2_root_relative_resolution
    (rest : jsstring) (sourceDocumentUri : Uri) (workspaceFolder_ : option Uri) :
  platform = Posix ->
  let parts := splitHref (CH_BACKSLASH :: rest) in
  resolveLocalFileUri (CH_BACKSLASH :: rest) sourceDocumentUri workspaceFolder_
  = match workspaceRootOf workspaceFolder_ with
    | None => None
    | Some root =>
        if truthy root
        then Some (Uri_with (Uri_file (path_join root (dropWhile clsPathSep (pathPart parts))))
                            (query parts) (fragment parts))
        else None
    end.
Proof.
  intros Hpf. cbv zeta. unfold resolveLocalFileUri. cbv zeta.
  rewrite pathPart_cons by reflexivity. cbn [truthy negb]. rewrite Hpf.
  change (path_isAbsolute Posix (CH_BACKSLASH :: pathPart (splitHref rest))) with false.
  change (isExternalHref (CH_BACKSLASH :: pathPart (splitHref rest))) with false.
  change (startsWith [CH_SLASH] (CH_BACKSLASH :: pathPart (splitHref rest))) with false.
  change (startsWith [CH_BACKSLASH] (CH_BACKSLASH :: pathPart (splitHref rest))) with true.
  cbv iota. cbn [orb].
  destruct (workspaceRootOf workspaceFolder_) as [root|]; [|reflexivity].
  destruct (truthy root); reflexivity.
Qed.

(** X1: fail-open.  When the resolver fails, the link rewriter and the image
    rewriter return the text they were given. *)
Theorem X1_rewriters_fail_open (context : RenderContext) (href_ : jsstring) :
  resolveLocalFileUri href_ (document_uri context) (workspaceFolder context) = None ->
  href (rewriteLinkHref href_ context) = href_
  /\ rewriteImageSource href_ context = href_.
Proof.
  intros E. unfold rewriteLinkHref, rewriteImageSource. cbv zeta. rewrite E.
  split.
  - destruct (negb (truthy href_)); [reflexivity|].
    destruct (startsWith [CH_HASH] href_); [reflexivity|].
    destruct (negb (truthy (pathPart (splitHref href_)))); [reflexivity|].
    destruct (isExternalHref _); [reflexivity|].
    destruct (isMarkdownPath _); reflexivity.
  - destruct (negb (truthy href_)); [reflexivity|].
    destruct (_ || _ || _); reflexivity.
Qed.

(** X3: a link the rewriter hands to the resolver is of kind [asset],
    resolved or not. *)
Theorem X3_local_link_is_asset (context : RenderContext) (href_ : jsstring) :
  startsWith [CH_HASH] href_ = false ->
  isExternalHref (pathPart (splitHref href_)) = false ->
  isMarkdownPath (pathPart (splitHref href_)) = false ->
  kind (rewriteLinkHref href_ context) = asset.
Proof.
  intros Hh He Hm. unfold rewriteLinkHref. cbv zeta. rewrite Hh, He, Hm.
  destruct (negb (truthy href_)); [reflexivity|].
  destruct (negb (truthy (pathPart (splitHref href_)))); [reflexivity|].
  destruct (resolveLocalFileUri _ _ _); reflexivity.
Qed.

End Resolver.

(** ** HTML escaping *)

Lemma replaceAllChar_flat_map (c : N) (by_ : jsstring) (f : N -> jsstring) (s : jsstring) :
  replaceAllChar c by_ (flat_map f s) = flat_map (fun x => replaceAllChar c by_ (f x)) s.
Proof.
  unfold replaceAllChar. induction s as [|x s IH]; simpl; [reflexivity|].
  now rewrite flat_map_app, IH.
Qed.

Lemma escapeChar_passes (x : N) :
  replaceAllChar CH_SQUOTE (js "&#39;")
    (replaceAllChar CH_DQUOTE (js "&quot;")
      (replaceAllChar CH_GT (js "&gt;")
        (replaceAllChar CH_LT (js "&lt;")
          (if (x =? CH_AMP)%N then js "&amp;" else [x]))))
  = escapeChar x.
Proof.
  unfold escapeChar.
  destruct (N.eqb_spec x CH_AMP) as [->|Ha]; [reflexivity|].
  destruct (N.eqb_spec x CH_LT) as [->|Hl]; [reflexivity|].
  destruct (N.eqb_spec x CH_GT) as [->|Hg]; [reflexivity|].
  destruct (N.eqb_spec x CH_DQUOTE) as [->|Hd]; [reflexivity|].
  destruct (N.eqb_spec x CH_SQUOTE) as [->|Hs]; [reflexivity|].
  unfold replaceAllChar. cbn [flat_map app].
  apply N.eqb_neq in Hl, Hg, Hd, Hs.
  rewrite Hl. cbn [flat_map app]. rewrite Hg. cbn [flat_map app].
  rewrite Hd. cbn [flat_map app]. now rewrite Hs.
Qed.

(** The five replacements in a row amount to one pass that writes, for each
    character, its entity or the character itself. *)
Lemma escapeHtml_one_pass (value : jsstring) :
  escapeHtml value = flat_map escapeChar value.
Proof.
  unfold escapeHtml.
  unfold replaceAllChar at 5.
  rewrite !replaceAllChar_flat_map.
  apply flat_map_ext. intros x. apply escapeChar_passes.
Qed.

Lemma escapeHtml_app (a b : jsstring) :
  escapeHtml (a ++ b) = escapeHtml a ++ escapeHtml b.
Proof. rewrite !escapeHtml_one_pass. apply flat_map_app. Qed.

(** A text without any of the five characters is its own escape. *)
Lemma escapeHtml_plain (t : jsstring) :
  forallb (fun c => negb (isHtmlSpecial c)) t = true -> escapeHtml t = t.
Proof.
  rewrite escapeHtml_one_pass.
  induction t as [|c t IH]; simpl; [reflexivity|].
  intros E. apply andb_true_iff in E as [Ec Et].
  rewrite (IH Et). unfold isHtmlSpecial in Ec. unfold escapeChar.
  apply negb_true_iff in Ec.
  repeat (apply orb_false_iff in Ec as [Ec ?]).
  now repeat match goal with E : N.eqb _ _ = false |- _ => rewrite E; clear E end.
Qed.

Lemma escapeChar_safe (x : N) :
  forallb (fun c => negb (isMarkupChar c)) (escapeChar x) = true.
Proof.
  unfold escapeChar.
  destruct (N.eqb_spec x CH_AMP); [reflexivity|].
  destruct (N.eqb_spec x CH_LT) as [|Hl]; [reflexivity|].
  destruct (N.eqb_spec x CH_GT) as [|Hg]; [reflexivity|].
  destruct (N.eqb_spec x CH_DQUOTE) as [|Hd]; [reflexivity|].
  destruct (N.eqb_spec x CH_SQUOTE) as [|Hs]; [reflexivity|].
  apply N.eqb_neq in Hl, Hg, Hd, Hs.
  cbn [forallb]. unfold isMarkupChar. now rewrite Hl, Hg, Hd, Hs.
Qed.

(** No character that opens or closes a tag or an attribute value survives
    escaping. *)
Lemma escapeHtml_safe (value : jsstring) :
  forallb (fun c => negb (isMarkupChar c)) (escapeHtml value) = true.
Proof.
  rewrite escapeHtml_one_pass.
  induction value as [|x s IH]; simpl; [reflexivity|].
  now rewrite forallb_app, escapeChar_safe, IH.
Qed.

Lemma forallb_weaken (p q : N -> bool) (s : jsstring) :
  (forall c, p c = true -> q c = true) -> forallb p s = true -> forallb q s = true.
Proof.
  intros Hpq. induction s as [|x s IH]; simpl; [reflexivity|].
  intros E. apply andb_true_iff in E as [Ex Es]. now rewrite (Hpq _ Ex), IH.
Qed.

Lemma escapeHtml_free_of (value : jsstring) (a : N) :
  isMarkupChar a = true ->
  forallb (fun c => negb (N.eqb c a)) (escapeHtml value) = true.
Proof.
  intros Ha. apply forallb_weaken with (2 := escapeHtml_safe value).
  intros c Hc. destruct (N.eqb_spec c a) as [->|]; [|reflexivity].
  now rewrite Ha in Hc.
Qed.

(** ** Substrings *)

Lemma startsWith_spec (p s : jsstring) :
  startsWith p s = true <-> exists r, s = p ++ r.
Proof.
  split.
  - revert s. induction p as [|x p IH]; intros s E; [now exists s|].
    destruct s as [|y s]; [discriminate|]. cbn [startsWith] in E.
    apply andb_true_iff in E as [E1 E2]. apply N.eqb_eq in E1. subst y.
    destruct (IH _ E2) as [r ->]. now exists r.
  - intros [r ->]. induction p as [|x p IH]; [reflexivity|].
    cbn [startsWith app]. now rewrite N.eqb_refl, IH.
Qed.

Lemma includes_spec (needle s : jsstring) :
  includes needle s = true <-> exists l r, s = l ++ needle ++ r.
Proof.
  split.
  - induction s as [|x s IH]; cbn [includes]; intros E.
    + rewrite orb_false_r in E. apply startsWith_spec in E as [r ->]. now exists [], r.
    + apply orb_true_iff in E as [E | E].
      * apply startsWith_spec in E as [r ->]. now exists [], r.
      * destruct (IH E) as (l & r & ->). now exists (x :: l), r.
  - intros (l & r & ->). induction l as [|x l IH].
    + destruct (needle ++ r) eqn:E; cbn [includes app];
        rewrite <- E; apply orb_true_iff; left; apply startsWith_spec; eauto.
    + cbn [includes app]. rewrite IH. apply orb_true_r.
Qed.

Lemma startsWith_includes (p s : jsstring) :
  startsWith p s = true -> includes p s = true.
Proof.
  intros E. apply startsWith_spec in E as [r ->].
  apply includes_spec. now exists [], r.
Qed.

(** A text free of the five characters that occurs in the source occurs as
    it is in any output built around the escaped source. *)
Lemma includes_escaped (t src before after : jsstring) :
  forallb (fun c => negb (isHtmlSpecial c)) t = true ->
  includes t src = true ->
  includes t (before ++ escapeHtml src ++ after) = true.
Proof.
  intros Ht E. apply includes_spec in E as (l & r & ->).
  rewrite !escapeHtml_app, (escapeHtml_plain _ Ht).
  apply includes_spec. exists (before ++ escapeHtml l), (escapeHtml r ++ after).
  now rewrite <- !app_assoc.
Qed.

Lemma hasPair_cons2 (a b x y : N) (s : jsstring) :
  hasPair a b (x :: y :: s) = (N.eqb x a && N.eqb y b) || hasPair a b (y :: s).
Proof. reflexivity. Qed.

Lemma hasPair_cons_other (a b x : N) (s : jsstring) :
  N.eqb x a = false -> hasPair a b (x :: s) = hasPair a b s.
Proof.
  intros E. destruct s as [|y s]; [reflexivity|].
  rewrite hasPair_cons2, E. reflexivity.
Qed.

(** A stretch free of [a] adds no pair. *)
Lemma hasPair_app_free (a b : N) (e s : jsstring) :
  forallb (fun c => negb (N.eqb c a)) e = true ->
  hasPair a b (e ++ s) = hasPair a b s.
Proof.
  induction e as [|x e IH]; [reflexivity|]. cbn [forallb app].
  intros E. apply andb_true_iff in E as [Ex Ee]. apply negb_true_iff in Ex.
  now rewrite hasPair_cons_other, IH.
Qed.

(** A prefix without the pair that does not end in [a] adds no pair. *)
Lemma hasPair_app_prefix (a b : N) (p s : jsstring) :
  hasPair a b p = false ->
  N.eqb (last p 0%N) a = false ->
  hasPair a b (p ++ s) = hasPair a b s.
Proof.
  induction p as [|x p IH]; [reflexivity|].
  destruct p as [|y p].
  - intros _ E. cbn [last] in E. cbn [app]. now apply hasPair_cons_other.
  - intros E1 E2. rewrite hasPair_cons2 in E1. apply orb_false_iff in E1 as [E1 E3].
    change ((x :: y :: p) ++ s) with (x :: y :: (p ++ s)).
    rewrite hasPair_cons2, E1. cbn [orb].
    apply (IH E3). exact E2.
Qed.

Lemma hasPair_app_mid (a b : N) (l m : jsstring) :
  hasPair a b (l ++ a :: b :: m) = true.
Proof.
  induction l as [|x l IH].
  - cbn [app]. rewrite hasPair_cons2, !N.eqb_refl. reflexivity.
  - cbn [app] in *. destruct (l ++ a :: b :: m) as [|y t] eqn:E.
    + destruct l; discriminate E.
    + rewrite hasPair_cons2, IH. apply orb_true_r.
Qed.

(** A string that includes a needle has every pair of neighbours of the
    needle. *)
Lemma includes_hasPair (a b : N) (p1 p2 s : jsstring) :
  includes (p1 ++ a :: b :: p2) s = true -> hasPair a b s = true.
Proof.
  intros E. apply includes_spec in E as (l & r & ->).
  rewrite <- app_assoc. cbn [app]. rewrite app_assoc. apply hasPair_app_mid.
Qed.

Lemma not_includes_of_no_pair (a b : N) (p1 p2 s : jsstring) :
  hasPair a b s = false -> includes (p1 ++ a :: b :: p2) s = false.
Proof.
  intros E. destruct (includes _ s) eqn:I; [|reflexivity].
  apply includes_hasPair in I. congruence.
Qed.

(** ** Fenced code: the claims *)

Section FenceClaims.

Context {H : Host}.

Lemma plain_block_shape (e tail : jsstring) :
  (PRE_CODE_BLOCK ++ (CODE_HLJS ++ e ++ js "</code>") ++ js "</pre>") ++ tail
  = (PRE_CODE_BLOCK ++ CODE_HLJS) ++ e ++ js "</code></pre>" ++ tail.
Proof. now rewrite <- !app_assoc. Qed.

(** The branch of [renderCodeBlock] for a language that is absent or that the
    highlighter does not know. *)
Lemma renderCodeBlock_plain (code language : jsstring) :
  toLowerCase (splitWhiteSpaceFirst (trim language)) = []
  \/ hljs_getLanguage (toLowerCase (splitWhiteSpaceFirst (trim language))) = false ->
  renderCodeBlock code language
  = PRE_CODE_BLOCK ++ (CODE_HLJS ++ escapeHtml code ++ js "</code>") ++ js "</pre>".
Proof.
  intros E. unfold renderCodeBlock. cbv zeta.
  destruct E as [-> | ->]; [reflexivity|]. now rewrite andb_false_r.
Qed.

(** Whatever the language, the result of [renderCodeBlock] opens the generic
    code container (so markdown-it's default rule returns it unwrapped). *)
Lemma renderCodeBlock_starts_pre (code language : jsstring) :
  startsWith PRE_CODE_BLOCK (renderCodeBlock code language) = true.
Proof.
  apply startsWith_spec. unfold renderCodeBlock. cbv zeta.
  destruct (_ && _); eauto.
Qed.

(** In the plain code container, a pair of neighbours that starts with a
    markup character can only come from the fixed text around the escaped
    code. *)
Lemma plain_block_no_pair (a b : N) (code tail : jsstring) :
  isMarkupChar a = true ->
  N.eqb CH_GT a = false ->
  hasPair a b (PRE_CODE_BLOCK ++ CODE_HLJS) = false ->
  hasPair a b (js "</code></pre>" ++ tail) = false ->
  hasPair a b ((PRE_CODE_BLOCK ++ (CODE_HLJS ++ escapeHtml code ++ js "</code>")
                ++ js "</pre>") ++ tail) = false.
Proof.
  intros Ha Hgt Hp Hs. rewrite plain_block_shape.
  rewrite hasPair_app_prefix; [| exact Hp | exact Hgt].
  now rewrite hasPair_app_free by now apply escapeHtml_free_of.
Qed.

(** C8: for a fence whose language is [mermaid], with diagrams enabled the
    output is the diagram container around the escaped source (no character
    of the source that could open a tag or an attribute survives, and every
    stretch of the source free of the five escaped characters appears as
    written); with diagrams disabled the output is that of the default rule,
    it opens the generic code container and not the diagram container, and,
    the highlighter not knowing the language, it is the escaped source in the
    generic container with no [class="mermaid"] anywhere. *)
Theorem C8_mermaid_fence (context : RenderContext) (token : Token) :
  getFenceLanguage (info token) = js "mermaid" ->
  (enableMermaid (settings context) = true ->
     fence context token = DIV_MERMAID ++ escapeHtml (content token) ++ js "</div>"
     /\ forallb (fun c => negb (isMarkupChar c)) (escapeHtml (content token)) = true
     /\ (forall t, forallb (fun c => negb (isHtmlSpecial c)) t = true ->
                   includes t (content token) = true ->
                   includes t (fence context token) = true))
  /\ (enableMermaid (settings context) = false ->
        fence context token = md_defaultFenceRule token
        /\ includes PRE_CODE_BLOCK (fence context token) = true
        /\ startsWith DIV_MERMAID (fence context token) = false
        /\ (hljs_getLanguage (fenceHighlightLanguage (info token)) = false ->
              fence context token
              = PRE_CODE_BLOCK ++ CODE_HLJS ++ escapeHtml (content token)
                ++ js "</code></pre>" ++ [10%N]
              /\ includes (js "class=" ++ quoted (js "mermaid")) (fence context token) = false
              /\ includes DIV_MERMAID (fence context token) = false)).
Proof.
  intros Hlang. split; intros Hm.
  - assert (E : fence context token
                = DIV_MERMAID ++ escapeHtml (content token) ++ js "</div>").
    { unfold fence. cbv zeta. rewrite Hm, Hlang. reflexivity. }
    split; [exact E|]. split; [apply escapeHtml_safe|].
    intros t Ht Hin. rewrite E. now apply includes_escaped.
  - assert (E : fence context token = md_defaultFenceRule token).
    { unfold fence. cbv zeta. now rewrite Hm. }
    rewrite E. unfold md_defaultFenceRule.
    split; [reflexivity|]. split; [|split].
    + apply startsWith_includes.
      pose proof (renderCodeBlock_starts_pre (content token) (md_fenceLangName (info token))) as S.
      apply startsWith_spec in S as [r ->]. apply startsWith_spec.
      exists (r ++ [10%N]). now rewrite app_assoc.
    + pose proof (renderCodeBlock_starts_pre (content token) (md_fenceLangName (info token))) as S.
      apply startsWith_spec in S as [r ->]. reflexivity.
    + intros Hh. unfold fenceHighlightLanguage in Hh.
      rewrite (renderCodeBlock_plain _ _ (or_intror Hh)).
      split; [|split].
      * rewrite plain_block_shape. now rewrite <- !app_assoc.
      * apply (not_includes_of_no_pair CH_DQUOTE 109 (js "class=") (js "ermaid" ++ [CH_DQUOTE])).
        now apply plain_block_no_pair.
      * apply (not_includes_of_no_pair CH_LT 100 [] (js "iv class=" ++ quoted (js "mermaid") ++ js ">")).
        now apply plain_block_no_pair.
Qed.

(** C9: for a language that is absent or unknown to the highlighter,
    [renderCodeBlock] returns the escaped code inside the generic code
    container; escaping is one pass that writes an entity for each of the
    five characters, so no character that could open a tag or an attribute
    survives, and no [<script>] occurs in the output, neither in that of
    [renderCodeBlock] nor in that of the [fence] rule for a fence it does not
    turn into a diagram. *)
Theorem C9_unknown_language_is_escaped (code language : jsstring) :
  toLowerCase (splitWhiteSpaceFirst (trim language)) = []
  \/ hljs_getLanguage (toLowerCase (splitWhiteSpaceFirst (trim language))) = false ->
  renderCodeBlock code language
  = PRE_CODE_BLOCK ++ CODE_HLJS ++ escapeHtml code ++ js "</code></pre>"
  /\ escapeHtml code = flat_map escapeChar code
  /\ forallb (fun c => negb (isMarkupChar c)) (escapeHtml code) = true
  /\ includes (js "<script>") (renderCodeBlock code language) = false
  /\ (forall context token,
        content token = code -> md_fenceLangName (info token) = language ->
        enableMermaid (settings context)
        && jseqb (getFenceLanguage (info token)) (js "mermaid") = false ->
        fence context token = renderCodeBlock code language ++ [10%N]
        /\ includes (js "<script>") (fence context token) = false).
Proof.
  intros E. pose proof (renderCodeBlock_plain code language E) as R.
  split; [|split; [|split; [|split]]].
  - rewrite R. pose proof (plain_block_shape (escapeHtml code) []) as S.
    rewrite !app_nil_r in S. rewrite S. now rewrite <- !app_assoc.
  - apply escapeHtml_one_pass.
  - apply escapeHtml_safe.
  - rewrite R. rewrite <- (app_nil_r (_ ++ _ ++ js "</pre>")).
    apply (not_includes_of_no_pair CH_LT 115 [] (js "cript>")).
    now apply plain_block_no_pair.
  - intros context token Hc Hl Hd. unfold fence. cbv zeta. rewrite Hd.
    unfold md_defaultFenceRule. rewrite Hc, Hl.
    split; [reflexivity|]. rewrite R.
    apply (not_includes_of_no_pair CH_LT 115 [] (js "cript>")).
    now apply plain_block_no_pair.
Qed.

End FenceClaims.

(** ** The readiness handshake *)

Lemma last_Some_cons (A : Type) (x : A) (l : list A) :
  last (Some x :: map Some l) None
  = Some (match last (map Some l) None with Some q => q | None => x end).
Proof.
  revert x. induction l as [|r l IH]; intros x; [reflexivity|].
  change (last (Some x :: map Some (r :: l)) None)
    with (last (Some r :: map Some l) None).
  cbn [map]. now rewrite IH.
Qed.

Lemma lastRender_render (p : RenderPayload) (events : list Event) :
  lastRender (EvRender p :: events)
  = Some (match lastRender events with Some q => q | None => p end).
Proof. unfold lastRender. cbn [renders map]. apply last_Some_cons. Qed.

Lemma lastRender_message (m : WebviewMessage) (events : list Event) :
  lastRender (EvMessage m :: events) = lastRender events.
Proof. reflexivity. Qed.

Lemma run_app (s : Session) (a b : list Event) :
  run s (a ++ b) =
  (fst (run (fst (run s a)) b), snd (run s a) ++ snd (run (fst (run s a)) b)).
Proof.
  revert s. induction a as [|e a IH]; intros s; cbn [run app].
  - cbn [fst snd app]. now destruct (run s b).
  - destruct (step s e) as [s1 o1]. rewrite IH.
    destruct (run s1 a) as [s2 o2]. cbn [fst snd].
    destruct (run s2 b) as [s3 o3]. cbn [fst snd]. now rewrite app_assoc.
Qed.

(** Before the readiness signal nothing is posted, and the pending payload
    is the last render so far (or what was pending before). *)
Lemma run_before_ready (events : list Event) (s : Session) :
  isReady s = false ->
  existsb isReadyEvent events = false ->
  run s events
  = (mkSession false
       (match lastRender events with
        | Some p => Some p
        | None => pendingRenderPayload s
        end), []).
Proof.
  revert s. induction events as [|e events IH]; intros [r pend] Hr Hn;
    cbn [isReady pendingRenderPayload] in *; subst r.
  - reflexivity.
  - cbn [existsb] in Hn. apply orb_false_iff in Hn as [He Hn].
    cbn [run]. destruct e as [p | [ | h d | ]]; try discriminate He;
      cbn [step postRenderPayload handleMessage isReady negb pendingRenderPayload];
      rewrite IH by (reflexivity || exact Hn);
      cbn [pendingRenderPayload app]; rewrite ?lastRender_render, ?lastRender_message;
      try reflexivity.
    now destruct (lastRender events).
Qed.

(** Once ready, with nothing pending, every render is posted at once and the
    session no longer changes. *)
Lemma run_after_ready (events : list Event) :
  run (mkSession true None) events = (mkSession true None, renders events).
Proof.
  induction events as [|e events IH]; [reflexivity|].
  cbn [run]. destruct e as [p | [ | h d | ]];
    cbn [step postRenderPayload handleMessage isReady negb pendingRenderPayload renders];
    now rewrite IH.
Qed.

Lemma step_keeps_ready (s : Session) (e : Event) :
  isReady s = true -> isReady (fst (step s e)) = true.
Proof.
  destruct s as [r pend]. cbn [isReady]. intros ->.
  destruct e as [p | [ | h d | ]]; try reflexivity.
  cbn [step handleMessage pendingRenderPayload]. now destruct pend.
Qed.

Lemma run_keeps_ready (events : list Event) (s : Session) :
  isReady s = true -> isReady (fst (run s events)) = true.
Proof.
  revert s. induction events as [|e events IH]; intros s Hs; [exact Hs|].
  cbn [run]. pose proof (step_keeps_ready s e Hs) as H1.
  destruct (step s e) as [s1 o1]. cbn [fst] in H1.
  specialize (IH s1 H1). destruct (run s1 events) as [s2 o2]. exact IH.
Qed.

(** C7: a session holds at most one pending payload (the field is an
    option); a render before readiness overwrites it and posts nothing, so
    that before the first readiness signal nothing has been posted and the
    pending payload is the most recent render; at the first readiness signal
    exactly that render is posted, if there was one, and from then on every
    render is posted at once, in order; readiness, once set, stays set
    whatever happens next. *)
Theorem C7_readiness_handshake :
  (forall s payload,
      isReady s = false ->
      postRenderPayload s payload = (mkSession false (Some payload), []))
  /\ (forall events,
        existsb isReadyEvent events = false ->
        run newSession events = (mkSession false (lastRender events), []))
  /\ (forall before after,
        existsb isReadyEvent before = false ->
        run newSession (before ++ EvMessage MsgReady :: after)
        = (mkSession true None, optionToList (lastRender before) ++ renders after))
  /\ (forall s events, isReady s = true -> isReady (fst (run s events)) = true)
  /\ (forall s payload,
        isReady s = true -> postRenderPayload s payload = (s, [payload])).
Proof.
  split; [|split; [|split; [|split]]].
  - intros [r pend] payload. cbn [isReady]. now intros ->.
  - intros events Hn. rewrite (run_before_ready events newSession eq_refl Hn).
    cbn [newSession pendingRenderPayload]. now destruct (lastRender events).
  - intros before after Hn. rewrite run_app.
    rewrite (run_before_ready before newSession eq_refl Hn).
    cbn [fst snd newSession pendingRenderPayload app run step handleMessage isReady].
    destruct (lastRender before) as [p|]; rewrite run_after_ready; reflexivity.
  - intros s events. apply run_keeps_ready.
  - intros [r pend] payload. cbn [isReady]. now intros ->.
Qed.

(** ** More on the parts of an href *)

Lemma forallb_takeWhile (p q : N -> bool) (s : jsstring) :
  forallb p s = true -> forallb p (takeWhile q s) = true.
Proof.
  induction s as [|x s IH]; simpl; [reflexivity|].
  intros E. apply andb_true_iff in E as [Ex Es].
  destruct (q x); simpl; [now rewrite Ex, IH | reflexivity].
Qed.

Lemma forallb_dropWhile (p q : N -> bool) (s : jsstring) :
  forallb p s = true -> forallb p (dropWhile q s) = true.
Proof.
  induction s as [|x s IH]; simpl; [reflexivity|].
  intros E. destruct (q x); [apply andb_true_iff in E as [_ Es]; auto | exact E].
Qed.

Lemma forallb_tl (p : N -> bool) (s : jsstring) :
  forallb p s = true -> forallb p (tl s) = true.
Proof.
  destruct s as [|x s]; simpl; [reflexivity|].
  intros E. now apply andb_true_iff in E as [_ Es].
Qed.

Lemma takeWhile_of_all (p : N -> bool) (s : jsstring) :
  forallb p s = true -> takeWhile p s = s /\ dropWhile p s = [].
Proof.
  induction s as [|x s IH]; simpl; [auto|].
  intros E. apply andb_true_iff in E as [Ex Es]. rewrite Ex.
  destruct (IH Es) as [-> ->]. auto.
Qed.

Lemma takeWhile_app_all (p : N -> bool) (l s : jsstring) :
  forallb p l = true -> takeWhile p (l ++ s) = l ++ takeWhile p s.
Proof.
  induction l as [|x l IH]; simpl; [reflexivity|].
  intros E. apply andb_true_iff in E as [Ex El]. now rewrite Ex, IH.
Qed.

(** X6: the path part [splitHref] returns holds neither [#] nor [?], the
    query holds no [#], and splitting the path part again gives it back whole
    with an empty query and an empty fragment. *)
Theorem X6_splitHref_parts_hold_no_delimiter (href_ : jsstring) :
  forallb notHash (pathPart (splitHref href_)) = true
  /\ forallb notQuestion (pathPart (splitHref href_)) = true
  /\ forallb notHash (query (splitHref href_)) = true
  /\ splitHref (pathPart (splitHref href_))
     = mkHrefParts (pathPart (splitHref href_)) [] [].
Proof.
  rewrite (splitHref_eq href_). cbn [pathPart query].
  assert (A : forallb notHash (takeWhile notQuestion (takeWhile notHash href_)) = true)
    by (apply forallb_takeWhile, takeWhile_all).
  assert (B : forallb notQuestion (takeWhile notQuestion (takeWhile notHash href_)) = true)
    by apply takeWhile_all.
  split; [exact A|]. split; [exact B|]. split.
  - apply forallb_tl, forallb_dropWhile, takeWhile_all.
  - rewrite splitHref_eq.
    destruct (takeWhile_of_all _ _ A) as [-> ->].
    destruct (takeWhile_of_all _ _ B) as [-> ->]. reflexivity.
Qed.

Lemma pathPart_app_clean (l s : jsstring) :
  forallb notHash l = true -> forallb notQuestion l = true ->
  pathPart (splitHref (l ++ s)) = l ++ pathPart (splitHref s).
Proof.
  intros Hh Hq. rewrite !pathPart_eq.
  rewrite (takeWhile_app_all notHash) by exact Hh.
  now rewrite (takeWhile_app_all notQuestion) by exact Hq.
Qed.

(** An href is its path part followed by the rest. *)
Lemma pathPart_is_prefix (href_ : jsstring) :
  exists rest, href_ = pathPart (splitHref href_) ++ rest.
Proof.
  rewrite pathPart_eq.
  exists (dropWhile notQuestion (takeWhile notHash href_) ++ dropWhile notHash href_).
  now rewrite app_assoc, !takeWhile_dropWhile.
Qed.

(** A pattern anchored at the start that matches a text matches every text
    that starts with it. *)
Lemma regexTest_app (items : list RegexItem) (s t : jsstring) :
  regexTest items s = true -> regexTest items (s ++ t) = true.
Proof.
  revert s. induction items as [|[cls|cls] items IH]; intros s.
  - reflexivity.
  - destruct s as [|c s]; [discriminate|]. cbn [regexTest app].
    intros E. apply andb_true_iff in E as [Ec Es]. now rewrite Ec, IH.
  - induction s as [|c s IHs]; intros E.
    + rewrite regexTest_star, orb_false_r in E. cbn [app].
      apply (IH []) in E. cbn [app] in E.
      rewrite regexTest_star, E. reflexivity.
    + rewrite (regexTest_star cls items (c :: s)) in E. cbn [app].
      rewrite (regexTest_star cls items (c :: s ++ t)).
      apply orb_true_iff in E as [E | E].
      * apply (IH _) in E. cbn [app] in E. now rewrite E.
      * apply andb_true_iff in E as [Ec Es].
        rewrite Ec, (IHs Es). apply orb_true_r.
Qed.

Lemma clsSchemeTailIU_notMark (c : N) :
  clsSchemeTailIU c = true -> notHash c = true /\ notQuestion c = true.
Proof.
  intros E. unfold notHash, notQuestion.
  destruct (N.eqb_spec c CH_HASH) as [->|_]; [discriminate E|].
  destruct (N.eqb_spec c CH_QUESTION) as [->|_]; [discriminate E|]. auto.
Qed.

Lemma forallb_clsSchemeTailIU_clean (mid : jsstring) :
  forallb clsSchemeTailIU mid = true ->
  forallb notHash mid = true /\ forallb notQuestion mid = true.
Proof.
  induction mid as [|c mid IH]; simpl; [auto|].
  intros E. apply andb_true_iff in E as [Ec Em].
  destruct (clsSchemeTailIU_notMark _ Ec) as [-> ->].
  destruct (IH Em) as [-> ->]. auto.
Qed.

(** An href that starts with a URI scheme has a path part that starts with
    it. *)
Lemma RE_URI_SCHEME_pathPart (href_ : jsstring) :
  regexTest RE_URI_SCHEME href_ = true ->
  regexTest RE_URI_SCHEME (pathPart (splitHref href_)) = true.
Proof.
  intros E. apply RE_URI_SCHEME_spec in E as (X & mid & rest & -> & HX & Hmid).
  destruct (clsLetterIU_notMark _ HX) as [HX1 HX2].
  destruct (forallb_clsSchemeTailIU_clean _ Hmid) as [Hm1 Hm2].
  rewrite pathPart_cons by assumption.
  rewrite pathPart_app_clean by assumption.
  rewrite pathPart_cons by reflexivity.
  apply RE_URI_SCHEME_spec. eauto 7.
Qed.

(** The path part of an href that is no Windows drive path is none
    either. *)
Lemma not_windows_pathPart (href_ : jsstring) :
  isLikelyWindowsAbsolutePath href_ = false ->
  isLikelyWindowsAbsolutePath (pathPart (splitHref href_)) = false.
Proof.
  intros E. destruct (isLikelyWindowsAbsolutePath (pathPart _)) eqn:W; [|reflexivity].
  destruct (pathPart_is_prefix href_) as [rest Hr].
  unfold isLikelyWindowsAbsolutePath in *.
  apply (regexTest_app _ _ rest) in W. rewrite <- Hr in W. congruence.
Qed.

(** ** Images, other attributes and clicks *)

Lemma clsCharI_cases (lower c : N) :
  clsCharI lower c = true -> c = lower \/ c = (lower - 32)%N.
Proof.
  unfold clsCharI. intros E. apply orb_true_iff in E as [E | E];
    apply N.eqb_eq in E; auto.
Qed.

(** A [data:] URI passes the renderer's external test. *)
Lemma isDataUri_isExternalHref (value : jsstring) :
  isDataUri value = true -> isExternalHref value = true.
Proof.
  unfold isDataUri, RE_DATA_URI.
  destruct value as [|d [|a [|t [|a' [|c rest]]]]]; cbn [regexTest]; intros E;
    repeat rewrite ?andb_false_r in E; try discriminate E.
  rewrite andb_true_r in E.
  repeat (apply andb_true_iff in E as [? E]).
  apply N.eqb_eq in E. subst c.
  repeat match goal with
         | Hc : clsCharI _ _ = true |- _ =>
             apply clsCharI_cases in Hc; destruct Hc; subst
         end; reflexivity.
Qed.

Section ImageAndClick.

Context {H : Host}.
Variable context : RenderContext.

(** X7: the image rewriter and the link rewriter agree on every source
    whose path part is not a Markdown path (there the link is kept as
    written and the image is resolved); and the [data:] test of the image
    rewriter never decides anything, a [data:] URI being external already. *)
Theorem X7_image_and_link_rewrite_alike (source : jsstring) :
  (isMarkdownPath (pathPart (splitHref source)) = false ->
   rewriteImageSource source context = href (rewriteLinkHref source context))
  /\ (isDataUri (pathPart (splitHref source)) = true ->
      isExternalHref (pathPart (splitHref source)) = true).
Proof.
  split; [|apply isDataUri_isExternalHref].
  intros Hm. unfold rewriteImageSource, rewriteLinkHref. cbv zeta. rewrite Hm.
  destruct (negb (truthy source)); [reflexivity|].
  destruct (startsWith [CH_HASH] source) eqn:Hh.
  - now rewrite (pathPart_of_hash _ Hh).
  - destruct (negb (truthy (pathPart (splitHref source)))); [reflexivity|].
    cbn [orb].
    destruct (isExternalHref (pathPart (splitHref source))) eqn:He.
    + now rewrite orb_true_r.
    + destruct (isDataUri (pathPart (splitHref source))) eqn:Hd.
      * apply isDataUri_isExternalHref in Hd. congruence.
      * cbn [orb]. destruct (resolveLocalFileUri _ _ _); reflexivity.
Qed.

Lemma jseqb_neq (a b : jsstring) : a <> b -> jseqb a b = false.
Proof.
  intros Hne. destruct (jseqb a b) eqn:E; [|reflexivity].
  apply jseqb_eq in E. contradiction.
Qed.

(** X8: the rules write their own attributes only.  [link_open] leaves every
    attribute other than the six it stamps as it found it; [image] sets [src]
    to the rewritten source and [loading] to [lazy] and leaves every other
    attribute (the alternative text, the title) as it found it. *)
Theorem X8_rules_keep_other_attributes (token : Token) (name : jsstring) :
  (~ In name [js "href"; js "data-original-href"; js "data-source-doc";
              js "data-link-kind"; js "target"; js "rel"] ->
   attrGet (link_open context token) name = attrGet token name)
  /\ (~ In name [js "src"; js "loading"] ->
      attrGet (image context token) name = attrGet token name)
  /\ attrGet (image context token) (js "src")
     = Some (rewriteImageSource (orEmpty (attrGet token (js "src"))) context)
  /\ attrGet (image context token) (js "loading") = Some (js "lazy").
Proof.
  split; [|split; [|split]].
  - intros Hn. cbn [In] in Hn.
    unfold link_open. cbv zeta.
    destruct (LinkKind_eqb _ external); unfold attrGet, attrSet; cbn [attrs];
      repeat (rewrite attrsGet_set_other by (apply jseqb_neq; intros E; apply Hn; tauto));
      reflexivity.
  - intros Hn. cbn [In] in Hn.
    unfold image. cbv zeta. unfold attrGet, attrSet; cbn [attrs].
    repeat (rewrite attrsGet_set_other by (apply jseqb_neq; intros E; apply Hn; tauto)).
    reflexivity.
  - unfold image. cbv zeta. read_attr.
  - unfold image. cbv zeta. read_attr.
Qed.

(** What the click listener posts from the anchor [link_open] leaves. *)
Lemma clickLink_link_open (token : Token) :
  clickLink (attrs (link_open context token))
  = (if negb (truthy (href (rewriteLinkHref (orEmpty (attrGet token (js "href"))) context)))
        || startsWith [CH_HASH]
             (href (rewriteLinkHref (orEmpty (attrGet token (js "href"))) context))
     then None
     else Some (MsgOpenLink (orEmpty (attrGet token (js "href")))
                            (Uri_toString (document_uri context)))).
Proof.
  destruct (link_open_attrs context token) as (A1 & A2 & A3 & _).
  unfold attrGet in *.
  set (authored := orEmpty (attrsGet (js "href") (attrs token))) in *.
  unfold clickLink. rewrite A1, A2, A3. cbv zeta.
  destruct (href (rewriteLinkHref authored context)) as [|r0 r] eqn:R;
    [reflexivity|]. cbn [orElse truthy negb orb].
  destruct (startsWith [CH_HASH] (r0 :: r)); [reflexivity|].
  destruct authored as [|a0 a] eqn:Ha.
  - unfold rewriteLinkHref in R. cbn in R. discriminate R.
  - cbn [orElse]. destruct (Uri_toString (document_uri context)); reflexivity.
Qed.

(** X9: from the anchor [link_open] leaves, the click listener of the
    webview posts nothing when the rewritten href is empty or starts with
    [#]; otherwise it posts [openLink] with the href as authored, not as
    rewritten, and with the address of the rendering document.  A hash link
    never posts. *)
Theorem X9_click_reports_the_authored_href (token : Token) :
  let authored := orEmpty (attrGet token (js "href")) in
  let rewritten := href (rewriteLinkHref authored context) in
  clickLink (attrs (link_open context token))
  = (if negb (truthy rewritten) || startsWith [CH_HASH] rewritten then None
     else Some (MsgOpenLink authored (Uri_toString (document_uri context))))
  /\ (startsWith [CH_HASH] authored = true ->
      clickLink (attrs (link_open context token)) = None).
Proof.
  cbv zeta. pose proof (clickLink_link_open token) as E.
  set (authored := orEmpty (attrGet token (js "href"))) in *.
  split; [exact E|].
  intros Hh. change (startsWith [CH_HASH] authored = true) in Hh. rewrite E.
  unfold rewriteLinkHref. rewrite Hh.
  destruct authored; [discriminate Hh|]. cbn [truthy negb href orb].
  now rewrite Hh.
Qed.

End ImageAndClick.

(** ** Navigation against rendering *)

Lemma RE_URI_SCHEME_head (c : N) (s : jsstring) :
  regexTest RE_URI_SCHEME (c :: s) = true -> clsLetterIU c = true.
Proof.
  intros E. apply RE_URI_SCHEME_spec in E as (X & mid & rest & E & HX & _).
  now injection E as -> _.
Qed.

Lemma RE_URI_SCHEME_not_hash (href_ : jsstring) :
  regexTest RE_URI_SCHEME href_ = true ->
  truthy href_ = true /\ startsWith [CH_HASH] href_ = false.
Proof.
  destruct href_ as [|c s]; [discriminate|]. intros E.
  apply RE_URI_SCHEME_head in E. split; [reflexivity|].
  cbn [startsWith]. rewrite andb_true_r.
  destruct (N.eqb_spec CH_HASH c) as [<-|]; [discriminate E | reflexivity].
Qed.

(** A path that starts with a URI scheme and is no Windows drive path is
    not absolute, on either platform. *)
Lemma scheme_path_not_absolute (pf : Platform) (p : jsstring) :
  regexTest RE_URI_SCHEME p = true ->
  isLikelyWindowsAbsolutePath p = false ->
  path_isAbsolute pf p = false.
Proof.
  destruct p as [|X t]; [discriminate|]. intros E W.
  apply RE_URI_SCHEME_head in E.
  assert (Hs : N.eqb X CH_SLASH = false)
    by (destruct (N.eqb_spec X CH_SLASH) as [->|]; [discriminate E | reflexivity]).
  assert (Hb : N.eqb X CH_BACKSLASH = false)
    by (destruct (N.eqb_spec X CH_BACKSLASH) as [->|]; [discriminate E | reflexivity]).
  destruct pf; cbn [path_isAbsolute]; [exact Hs|].
  unfold clsPathSep at 1. rewrite Hs, Hb. cbn [orb].
  destruct t as [|c1 [|c2 t]]; try reflexivity.
  unfold isLikelyWindowsAbsolutePath, RE_WINDOWS_ABSOLUTE in W. cbn [regexTest] in W.
  rewrite E, andb_true_r in W. cbn [andb] in W. unfold clsChar in W.
  destruct (isAsciiLetter X); [|reflexivity]. cbn [andb]. exact W.
Qed.

Section NavigationClaims.

Context {H : Host} {NH : NavHost}.
Variable context : RenderContext.

(** X10: whatever the navigation handler opens in the external browser (an
    href whose parsed scheme is [http], [https] or [mailto]) the renderer has
    classified [external]: the handler answers [openExternal] with the parsed
    href, and the anchor was stamped [external] with its href unchanged. *)
Theorem X10_opened_externally_was_rendered_external
    (currentDocumentUri : Uri) (rawHref sourceDoc : jsstring) :
  PreviewPanel.isExternalHref rawHref = true ->
  PreviewPanel.handleOpenLink currentDocumentUri rawHref sourceDoc
  = Returned (PreviewPanel.OpenExternal (Uri_parse rawHref))
  /\ rewriteLinkHref rawHref context = mkLinkRewriteResult rawHref external.
Proof.
  intros E. pose proof E as E'.
  unfold PreviewPanel.isExternalHref, PreviewPanel.hasUriScheme in E'.
  destruct (isLikelyWindowsAbsolutePath rawHref) eqn:W; [discriminate E'|].
  destruct (regexTest RE_URI_SCHEME rawHref) eqn:S; [|discriminate E'].
  destruct (RE_URI_SCHEME_not_hash _ S) as [Ht Hh].
  split.
  - unfold PreviewPanel.handleOpenLink. now rewrite Ht, Hh, E.
  - apply rewriteLinkHref_external. unfold isExternalHref.
    now rewrite (not_windows_pathPart _ W), (RE_URI_SCHEME_pathPart _ S).
Qed.

(** X11: an href with a URI scheme other than [http], [https], [mailto] and
    [file] (and no Windows drive path) is stamped [external] by the
    renderer, yet a click on it does nothing: the handler neither opens it
    externally nor resolves it. *)
Theorem X11_other_schemes_render_external_but_open_nothing
    (currentDocumentUri : Uri) (rawHref sourceDoc : jsstring) :
  PreviewPanel.hasUriScheme rawHref = true ->
  isLikelyWindowsAbsolutePath rawHref = false ->
  Uri_parse_throws rawHref = false ->
  jseqb (Uri_scheme (Uri_parse rawHref)) (js "http") = false ->
  jseqb (Uri_scheme (Uri_parse rawHref)) (js "https") = false ->
  jseqb (Uri_scheme (Uri_parse rawHref)) (js "mailto") = false ->
  jseqb (Uri_scheme (Uri_parse rawHref)) (js "file") = false ->
  rewriteLinkHref rawHref context = mkLinkRewriteResult rawHref external
  /\ PreviewPanel.handleOpenLink currentDocumentUri rawHref sourceDoc
     = Returned PreviewPanel.NoAction.
Proof.
  intros S W T E1 E2 E3 E4. unfold PreviewPanel.hasUriScheme in S.
  destruct (RE_URI_SCHEME_not_hash _ S) as [Ht Hh].
  pose proof (not_windows_pathPart _ W) as Wp.
  pose proof (RE_URI_SCHEME_pathPart _ S) as Sp.
  split.
  - apply rewriteLinkHref_external. unfold isExternalHref. now rewrite Wp, Sp.
  - unfold PreviewPanel.handleOpenLink, PreviewPanel.isExternalHref,
      PreviewPanel.hasUriScheme.
    rewrite Ht, Hh, W, S, T, E1, E2, E3. cbn [negb orb]. cbv zeta.
    unfold PreviewPanel.resolveLocalUri, PreviewPanel.hasUriScheme. cbv zeta.
    rewrite (scheme_path_not_absolute platform _ Sp Wp), Sp, T, E4.
    destruct (pathPart (splitHref rawHref)); [discriminate Sp | reflexivity].
Qed.

Lemma option_map_nullish (A B : Type) (f : A -> B) (a b : option A) :
  option_map f (nullish a b) = nullish (option_map f a) (option_map f b).
Proof. destruct a; reflexivity. Qed.

(** The two resolvers side by side; [Uri.parse] is reached only for a path
    part that is not absolute and has a scheme. *)
Lemma resolveLocalUri_agrees
    (rawHref : jsstring) (sourceDocumentUri : Uri) (workspaceFolder_ : option Uri) :
  path_isAbsolute platform (pathPart (splitHref rawHref)) = true
  \/ isLikelyWindowsAbsolutePath (pathPart (splitHref rawHref)) = false ->
  (path_isAbsolute platform (pathPart (splitHref rawHref)) = false ->
   regexTest RE_URI_SCHEME (pathPart (splitHref rawHref)) = true ->
   Uri_parse_throws rawHref = false) ->
  workspace_getWorkspaceFolder sourceDocumentUri = workspaceFolder_ ->
  (forall root, workspaceRootOf workspaceFolder_ = Some root -> truthy root = true) ->
  (forall a b, truthy (path_join a b) = true) ->
  (forall a b, truthy (path_resolve a b) = true) ->
  PreviewPanel.resolveLocalUri rawHref sourceDocumentUri
  = Returned (resolveLocalFileUri rawHref sourceDocumentUri workspaceFolder_).
Proof.
  intros Hp T Hw Hroot Hjoin Hres.
  unfold PreviewPanel.resolveLocalUri, resolveLocalFileUri,
    PreviewPanel.hasUriScheme, isExternalHref. cbv zeta.
  destruct (negb (truthy (pathPart (splitHref rawHref)))); [reflexivity|].
  destruct (path_isAbsolute platform (pathPart (splitHref rawHref))) eqn:A; [reflexivity|].
  destruct Hp as [Hp | Hp]; [discriminate Hp|]. rewrite Hp.
  destruct (regexTest RE_URI_SCHEME (pathPart (splitHref rawHref))).
  - rewrite (T eq_refl eq_refl). destruct (jseqb _ (js "file")); reflexivity.
  - destruct (startsWith [CH_SLASH] _ || startsWith [CH_BACKSLASH] _).
    + unfold PreviewPanel.resolveFromWorkspaceRoot. cbv zeta. rewrite Hw.
      unfold workspaceRootOf in *. rewrite <- option_map_nullish in *.
      destruct (nullish workspaceFolder_ (hd_error workspace_workspaceFolders))
        as [folder|]; cbn [option_map] in *; [|reflexivity].
      rewrite (Hroot _ eq_refl), Hjoin. reflexivity.
    + now rewrite Hres.
Qed.

(** X12: the resolver of the navigation handler finds what the resolver of
    the renderer found.  For an href whose path part is absolute or no
    Windows drive path, a source document in the workspace folder the
    renderer was given, a non-empty workspace root, and [path.join] and
    [path.resolve] returning non-empty paths (as Node's do), [resolveLocalUri]
    returns exactly [resolveLocalFileUri]'s result. *)
Theorem X12_navigation_resolves_as_the_renderer
    (rawHref : jsstring) (sourceDocumentUri : Uri) (workspaceFolder_ : option Uri) :
  path_isAbsolute platform (pathPart (splitHref rawHref)) = true
  \/ isLikelyWindowsAbsolutePath (pathPart (splitHref rawHref)) = false ->
  Uri_parse_throws rawHref = false ->
  workspace_getWorkspaceFolder sourceDocumentUri = workspaceFolder_ ->
  (forall root, workspaceRootOf workspaceFolder_ = Some root -> truthy root = true) ->
  (forall a b, truthy (path_join a b) = true) ->
  (forall a b, truthy (path_resolve a b) = true) ->
  PreviewPanel.resolveLocalUri rawHref sourceDocumentUri
  = Returned (resolveLocalFileUri rawHref sourceDocumentUri workspaceFolder_).
Proof.
  intros Hp T Hw Hroot Hjoin Hres.
  apply resolveLocalUri_agrees; auto.
Qed.

(** X19: a click opens what was rendered, for a link whose path part is
    absolute or is no Windows drive path.  Take a link that is no hash link,
    whose path part is not external, is no Markdown path, and is absolute or
    no Windows drive path, and that [resolveLocalFileUri] resolved to a local
    file [target].  Let the webview address of [target] be a URI, let the
    editor parse the address of the rendering document back to that
    document and report for it the workspace folder the renderer was given,
    let the workspace root, if any, be non-empty, and let [path.join] and
    [path.resolve] return non-empty paths.  Then the anchor's [href] is the
    webview address of [target], the click listener posts the href as
    authored with the address of the document, and the navigation handler,
    from that message, opens the very [target] the renderer resolved: as a
    Markdown document, its fragment dropped, if its extension says so, else
    with the default handler. *)
Theorem X19_click_opens_what_was_rendered
    (token : Token) (currentDocumentUri target : Uri) :
  let authored := orEmpty (attrGet token (js "href")) in
  let sourceDoc := Uri_toString (document_uri context) in
  startsWith [CH_HASH] authored = false ->
  isExternalHref (pathPart (splitHref authored)) = false ->
  isMarkdownPath (pathPart (splitHref authored)) = false ->
  path_isAbsolute platform (pathPart (splitHref authored)) = true
  \/ isLikelyWindowsAbsolutePath (pathPart (splitHref authored)) = false ->
  resolveLocalFileUri authored (document_uri context) (workspaceFolder context)
  = Some target ->
  regexTest RE_URI_SCHEME (Uri_toString (webview_asWebviewUri context target)) = true ->
  PreviewPanel.parseSourceDocumentUri sourceDoc = Some (document_uri context) ->
  workspace_getWorkspaceFolder (document_uri context) = workspaceFolder context ->
  (forall root, workspaceRootOf (workspaceFolder context) = Some root ->
                truthy root = true) ->
  (forall a b, truthy (path_join a b) = true) ->
  (forall a b, truthy (path_resolve a b) = true) ->
  attrGet (link_open context token) (js "href")
  = Some (Uri_toString (webview_asWebviewUri context target))
  /\ clickLink (attrs (link_open context token)) = Some (MsgOpenLink authored sourceDoc)
  /\ PreviewPanel.handleOpenLink currentDocumentUri authored sourceDoc
     = Returned
         (if MARKDOWN_EXTENSIONS_has (toLowerCase (path_extname (Uri_fsPath target)))
          then PreviewPanel.OpenMarkdownDocument (Uri_withFragment target [])
          else PreviewPanel.OpenWithDefaultHandler target).
Proof.
  cbv zeta. intros Hh He Hm Hp Hr Hw Hs Hf Hroot Hjoin Hres.
  set (authored := orEmpty (attrGet token (js "href"))) in *.
  assert (Hpp : truthy (pathPart (splitHref authored)) = true).
  { unfold resolveLocalFileUri in Hr. cbv zeta in Hr.
    destruct (truthy (pathPart (splitHref authored))); [reflexivity | discriminate Hr]. }
  assert (Ha : truthy authored = true).
  { destruct authored; [discriminate Hpp | reflexivity]. }
  assert (R : rewriteLinkHref authored context
              = mkLinkRewriteResult (Uri_toString (webview_asWebviewUri context target)) asset).
  { unfold rewriteLinkHref. cbv zeta. now rewrite Ha, Hh, Hpp, He, Hm, Hr. }
  destruct (RE_URI_SCHEME_not_hash _ Hw) as [Wt Wh].
  split; [|split].
  - destruct (link_open_attrs context token) as (A1 & _). cbv zeta in A1.
    fold authored in A1. now rewrite A1, R.
  - rewrite clickLink_link_open. fold authored. rewrite R. cbn [href].
    now rewrite Wt, Wh.
  - assert (Ne : PreviewPanel.isExternalHref authored = false).
    { destruct (PreviewPanel.isExternalHref authored) eqn:E; [|reflexivity].
      unfold PreviewPanel.isExternalHref, PreviewPanel.hasUriScheme in E.
      destruct (isLikelyWindowsAbsolutePath authored) eqn:W; [discriminate E|].
      destruct (regexTest RE_URI_SCHEME authored) eqn:S; [|discriminate E].
      unfold isExternalHref in He.
      now rewrite (not_windows_pathPart _ W), (RE_URI_SCHEME_pathPart _ S) in He. }
    assert (Ns : path_isAbsolute platform (pathPart (splitHref authored)) = false ->
                 regexTest RE_URI_SCHEME (pathPart (splitHref authored)) = true ->
                 Uri_parse_throws authored = false).
    { intros A S. exfalso. destruct Hp as [Hp | Hp]; [congruence|].
      unfold isExternalHref in He. rewrite Hp, S in He. discriminate He. }
    unfold PreviewPanel.handleOpenLink. rewrite Ha, Hh, Ne, Hs. cbn [negb orb].
    rewrite (resolveLocalUri_agrees authored (document_uri context)
               (workspaceFolder context) Hp Ns Hf Hroot Hjoin Hres), Hr.
    now destruct (MARKDOWN_EXTENSIONS_has _).
Qed.

End NavigationClaims.

(** ** The render timer and the panel slot *)

Module PreviewPanelFacts.

Import PreviewPanel.

(** The session's handle is armed, and nothing else is. *)
Definition timerInv (st : TimerState) : Prop :=
  match renderTimer st with
  | None => armedTimers st = []
  | Some t => exists d, armedTimers st = [(t, d)] /\ (0 <= d)%Z
  end.

Lemma clearTimeout_single (t : nat) (d : Z) : clearTimeout t [(t, d)] = [].
Proof. unfold clearTimeout. cbn [filter fst]. now rewrite Nat.eqb_refl. Qed.

Lemma scheduleRender_shape (debounceMs : Z) (st : TimerState) :
  timerInv st ->
  scheduleRender debounceMs st
  = mkTimerState (Some (nextHandle st)) [(nextHandle st, Z.max 0 debounceMs)]
                 (S (nextHandle st)) (rendersRun st).
Proof.
  destruct st as [[t|] armed next runs]; unfold timerInv; cbn [renderTimer armedTimers].
  - intros (d & -> & _). unfold scheduleRender. cbn [renderTimer armedTimers nextHandle rendersRun].
    now rewrite clearTimeout_single.
  - now intros ->.
Qed.

Lemma timerStep_inv (st : TimerState) (e : TimerEvent) :
  timerInv st -> timerInv (timerStep st e).
Proof.
  intros I. destruct e as [d | h | ]; cbn [timerStep].
  - rewrite (scheduleRender_shape d st I). unfold timerInv. cbn [renderTimer armedTimers].
    exists (Z.max 0 d). split; [reflexivity | lia].
  - destruct st as [[t|] armed next runs]; unfold timerInv in I;
      cbn [renderTimer armedTimers] in I.
    + destruct I as (d & -> & Hd). unfold fireTimer. cbn [armedTimers existsb fst orb].
      rewrite orb_false_r. destruct (Nat.eqb t h) eqn:E.
      * apply Nat.eqb_eq in E. subst h. rewrite clearTimeout_single. reflexivity.
      * unfold timerInv. cbn [renderTimer armedTimers]. eauto.
    + subst armed. reflexivity.
  - destruct st as [[t|] armed next runs]; unfold timerInv in I;
      cbn [renderTimer armedTimers] in I.
    + destruct I as (d & -> & Hd). unfold disposeTimer. cbn [renderTimer armedTimers].
      now rewrite clearTimeout_single.
    + subst armed. reflexivity.
Qed.

Lemma timerRun_inv (events : list TimerEvent) (st : TimerState) :
  timerInv st -> timerInv (timerRun st events).
Proof.
  revert st. induction events as [|e events IH]; intros st I; [exact I|].
  cbn [timerRun fold_left]. apply IH, timerStep_inv, I.
Qed.

Lemma timerStep_count (st : TimerState) (e : TimerEvent) :
  timerInv st ->
  (rendersRun (timerStep st e) + length (armedTimers (timerStep st e))
   <= rendersRun st + length (armedTimers st) + (if isSchedule e then 1 else 0))%nat.
Proof.
  intros I. destruct e as [d | h | ]; cbn [timerStep isSchedule].
  - rewrite (scheduleRender_shape d st I). cbn [rendersRun armedTimers length]. lia.
  - destruct st as [[t|] armed next runs]; unfold timerInv in I;
      cbn [renderTimer armedTimers] in I.
    + destruct I as (d & -> & Hd). unfold fireTimer. cbn [armedTimers existsb fst orb].
      rewrite orb_false_r. destruct (Nat.eqb t h) eqn:E.
      * apply Nat.eqb_eq in E. subst h. rewrite clearTimeout_single.
        cbn [timerCallback rendersRun armedTimers length]. lia.
      * cbn [rendersRun armedTimers length]. lia.
    + subst armed. cbn. lia.
  - destruct st as [[t|] armed next runs]; unfold timerInv in I;
      cbn [renderTimer armedTimers] in I.
    + destruct I as (d & -> & Hd). unfold disposeTimer. cbn [renderTimer armedTimers].
      rewrite clearTimeout_single. cbn. lia.
    + subst armed. cbn. lia.
Qed.

Lemma timerRun_count (events : list TimerEvent) (st : TimerState) :
  timerInv st ->
  (rendersRun (timerRun st events) + length (armedTimers (timerRun st events))
   <= rendersRun st + length (armedTimers st) + length (filter isSchedule events))%nat.
Proof.
  revert st. induction events as [|e events IH]; intros st I; cbn [timerRun fold_left filter].
  - lia.
  - pose proof (timerStep_count st e I) as C.
    pose proof (IH _ (timerStep_inv st e I)) as R. unfold timerRun in R.
    destruct (isSchedule e); cbn [length]; lia.
Qed.

Lemma timerRun_schedules (burst : list TimerEvent) (st : TimerState) :
  timerInv st -> forallb isSchedule burst = true ->
  rendersRun (timerRun st burst) = rendersRun st.
Proof.
  revert st. induction burst as [|e burst IH]; intros st I B; [reflexivity|].
  cbn [forallb] in B. apply andb_true_iff in B as [Be Bb].
  cbn [timerRun fold_left].
  pose proof (IH _ (timerStep_inv st e I) Bb) as R. unfold timerRun in R. rewrite R.
  destruct e as [d | h | ]; try discriminate Be.
  cbn [timerStep]. now rewrite (scheduleRender_shape d st I).
Qed.

Lemma timerRun_app (a b : list TimerEvent) (st : TimerState) :
  timerRun st (a ++ b) = timerRun (timerRun st a) b.
Proof. apply fold_left_app. Qed.

(** X13: the debounce.  After any sequence of schedulings, timer firings and
    disposals, at most one timer is armed, it is the one the session holds,
    and its delay is not negative; renders never outnumber schedulings; and
    a burst of schedulings, however long, ends with one armed timer whose
    firing runs exactly one render and leaves no timer behind. *)
Theorem X13_debounce_keeps_one_timer (events : list TimerEvent) :
  let st := timerRun noTimer events in
  map fst (armedTimers st) = optionToList (renderTimer st)
  /\ (forall t d, In (t, d) (armedTimers st) -> (0 <= d)%Z)
  /\ (rendersRun st + length (armedTimers st) <= length (filter isSchedule events))%nat
  /\ (forall burst debounceMs,
        forallb isSchedule burst = true ->
        let st' := timerRun st (burst ++ [Schedule debounceMs]) in
        exists handle,
          renderTimer st' = Some handle
          /\ armedTimers st' = [(handle, Z.max 0 debounceMs)]
          /\ rendersRun st' = rendersRun st
          /\ rendersRun (fireTimer handle st') = S (rendersRun st)
          /\ armedTimers (fireTimer handle st') = []
          /\ renderTimer (fireTimer handle st') = None).
Proof.
  cbv zeta.
  assert (I0 : timerInv noTimer) by reflexivity.
  pose proof (timerRun_inv events noTimer I0) as I.
  pose proof (timerRun_count events noTimer I0) as C.
  set (st := timerRun noTimer events) in *.
  split; [|split; [|split]].
  - unfold timerInv in I. destruct (renderTimer st) as [t|].
    + destruct I as (d & -> & _). reflexivity.
    + now rewrite I.
  - intros t d Hin. unfold timerInv in I. destruct (renderTimer st) as [t'|].
    + destruct I as (d' & E & Hd). rewrite E in Hin. cbn [In] in Hin.
      destruct Hin as [Hin|[]]. injection Hin as -> ->. exact Hd.
    + rewrite I in Hin. destruct Hin.
  - cbn [noTimer rendersRun armedTimers length] in C. lia.
  - intros burst d B. rewrite timerRun_app.
    pose proof (timerRun_inv burst st I) as Ib.
    pose proof (timerRun_schedules burst st I B) as Rb.
    set (sb := timerRun st burst) in *.
    change (timerRun sb [Schedule d]) with (scheduleRender d sb).
    rewrite (scheduleRender_shape d sb Ib).
    exists (nextHandle sb). cbn [renderTimer armedTimers rendersRun].
    repeat split; try exact Rb.
    + unfold fireTimer. cbn [armedTimers existsb fst orb]. rewrite Nat.eqb_refl.
      cbn [orb]. rewrite clearTimeout_single. cbn [timerCallback rendersRun]. now rewrite Rb.
    + unfold fireTimer. cbn [armedTimers existsb fst orb]. rewrite Nat.eqb_refl.
      cbn [orb]. now rewrite clearTimeout_single.
    + unfold fireTimer. cbn [armedTimers existsb fst orb]. rewrite Nat.eqb_refl.
      reflexivity.
Qed.

(** The slot holds the open panel, and no other panel is open. *)
Definition panelInv (w : PanelWorld) : Prop :=
  openPanels w = optionToList (option_map fst (currentPanelInstance w)).

Lemma panelStep_inv (w : PanelWorld) (e : PanelEvent) :
  panelInv w -> panelInv (panelStep w e).
Proof.
  destruct w as [[[p doc]|] open next]; unfold panelInv;
    cbn [openPanels currentPanelInstance option_map optionToList fst]; intros ->;
    destruct e as [d | q]; cbn [panelStep createOrShow closePanel currentPanelInstance
                                  openPanels nextPanel existsb orb]; try reflexivity.
  unfold closePanel. cbn [openPanels existsb]. rewrite orb_false_r.
  destruct (Nat.eqb q p) eqn:E.
  - cbn [filter]. apply Nat.eqb_eq in E. subst q. rewrite Nat.eqb_refl. reflexivity.
  - reflexivity.
Qed.

Lemma panelRun_inv (events : list PanelEvent) (w : PanelWorld) :
  panelInv w -> panelInv (panelRun w events).
Proof.
  revert w. induction events as [|e events IH]; intros w I; [exact I|].
  cbn [panelRun fold_left]. apply IH, panelStep_inv, I.
Qed.

(** X14: one panel at most.  After any sequence of [createOrShow] calls and
    panel closings, the open panels are exactly the one in
    [currentPanelInstance], if any; and after a [createOrShow] the slot holds
    an open panel that shows the document asked for. *)
Theorem X14_at_most_one_panel (events : list PanelEvent) :
  let w := panelRun noPanel events in
  openPanels w = optionToList (option_map fst (currentPanelInstance w))
  /\ (length (openPanels w) <= 1)%nat
  /\ (forall document,
        exists panel,
          currentPanelInstance (createOrShow document w) = Some (panel, document)
          /\ openPanels (createOrShow document w) = [panel]).
Proof.
  cbv zeta. pose proof (panelRun_inv events noPanel eq_refl) as I.
  set (w := panelRun noPanel events) in *.
  unfold panelInv in I. split; [exact I|]. split.
  - rewrite I. destruct (currentPanelInstance w); cbn; lia.
  - intros document. unfold createOrShow.
    destruct (currentPanelInstance w) as [[p doc]|] eqn:E;
      cbn [option_map optionToList fst] in I.
    + exists p. cbn [currentPanelInstance openPanels]. now rewrite I.
    + exists (nextPanel w). cbn [currentPanelInstance openPanels]. now rewrite I.
Qed.

End PreviewPanelFacts.

(** ** The language of a fence, and escaping once more *)

Lemma dropWhile_app_nil (p : N -> bool) (x y : jsstring) :
  dropWhile p x = [] -> dropWhile p (x ++ y) = dropWhile p y.
Proof.
  induction x as [|c x IH]; [reflexivity|]. cbn [dropWhile app].
  destruct (p c); [exact IH | discriminate].
Qed.

Lemma dropWhile_app_cons (p : N -> bool) (x y : jsstring) (c : N) (r : jsstring) :
  dropWhile p x = c :: r -> dropWhile p (x ++ y) = (c :: r) ++ y.
Proof.
  induction x as [|d x IH]; [discriminate|]. cbn [dropWhile app].
  destruct (p d); [exact IH | intros E; injection E as -> ->; reflexivity].
Qed.

Lemma dropWhile_none (p : N -> bool) (s : jsstring) :
  forallb (fun c => negb (p c)) s = true -> dropWhile p s = s.
Proof.
  destruct s as [|c s]; [reflexivity|]. cbn [forallb dropWhile].
  intros E. apply andb_true_iff in E as [Ec _]. apply negb_true_iff in Ec. now rewrite Ec.
Qed.

Lemma dropWhile_all (p : N -> bool) (s : jsstring) :
  forallb p s = true -> dropWhile p s = [].
Proof. intros E. now destruct (takeWhile_of_all p s E). Qed.

Lemma forallb_rev (p : N -> bool) (s : jsstring) :
  forallb p (rev s) = forallb p s.
Proof.
  induction s as [|c s IH]; [reflexivity|]. cbn [rev forallb].
  rewrite forallb_app, IH. cbn [forallb]. rewrite andb_true_r. apply andb_comm.
Qed.

(** [trimEnd] cuts a suffix off. *)
Lemma trimEnd_prefix (s : jsstring) : exists suffix, s = trimEnd s ++ suffix.
Proof.
  exists (rev (takeWhile isWhiteSpace (rev s))). unfold trimEnd.
  rewrite <- rev_app_distr, takeWhile_dropWhile. now rewrite rev_involutive.
Qed.

(** [trimEnd] keeps whatever precedes a text that does not end in white
    space. *)
Lemma trimEnd_app (a b : jsstring) :
  a <> [] -> forallb (fun c => negb (isWhiteSpace c)) a = true ->
  trimEnd (a ++ b) = a ++ trimEnd b.
Proof.
  intros Ha Hn. unfold trimEnd. rewrite rev_app_distr.
  destruct (dropWhile isWhiteSpace (rev b)) as [|c r] eqn:E.
  - rewrite (dropWhile_app_nil _ _ _ E).
    rewrite dropWhile_none by now rewrite forallb_rev.
    cbn [rev]. now rewrite rev_involutive, app_nil_r.
  - rewrite (dropWhile_app_cons _ _ _ _ _ E).
    now rewrite rev_app_distr, rev_involutive.
Qed.

(** The first word of an info string, white space around it apart. *)
Lemma first_word_of_info (lead word tail : jsstring) :
  forallb isWhiteSpace lead = true ->
  word <> [] ->
  forallb (fun c => negb (isWhiteSpace c)) word = true ->
  tail = [] \/ (exists w t, tail = w :: t /\ isWhiteSpace w = true) ->
  splitWhiteSpaceFirst (trim (lead ++ word ++ tail)) = word.
Proof.
  intros Hl Hw Hn Ht. unfold trim, trimStart.
  rewrite (dropWhile_app_nil _ _ _ (dropWhile_all _ _ Hl)).
  assert (Es : dropWhile isWhiteSpace (word ++ tail) = word ++ tail).
  { destruct word as [|c word]; [contradiction|]. cbn [app dropWhile forallb] in *.
    apply andb_true_iff in Hn as [Hc _]. apply negb_true_iff in Hc. now rewrite Hc. }
  rewrite Es, (trimEnd_app _ _ Hw Hn).
  unfold splitWhiteSpaceFirst. rewrite (takeWhile_app_all _ _ _ Hn).
  destruct (trimEnd_prefix tail) as [suffix Hs].
  destruct (trimEnd tail) as [|c r] eqn:E; [now rewrite app_nil_r|].
  destruct Ht as [-> | (w & t & -> & Hws)]; [discriminate Hs|].
  injection Hs as <- _. cbn [takeWhile]. rewrite Hws. cbn [negb]. now rewrite app_nil_r.
Qed.

Section FenceLanguage.

Context {H : Host}.

(** X15: the language of a fence is its first word, lower-cased, whatever
    white space surrounds it and whatever follows it; a fence whose first
    word lower-cases to [mermaid] is rendered as a diagram when diagrams are
    enabled, attributes after the word notwithstanding; an info string of
    white space only has the empty language. *)
Theorem X15_fence_language_is_the_first_word (lead word tail : jsstring) :
  forallb isWhiteSpace lead = true ->
  word <> [] ->
  forallb (fun c => negb (isWhiteSpace c)) word = true ->
  tail = [] \/ (exists w t, tail = w :: t /\ isWhiteSpace w = true) ->
  getFenceLanguage (lead ++ word ++ tail) = toLowerCase word
  /\ (forall context token,
        info token = lead ++ word ++ tail ->
        toLowerCase word = js "mermaid" ->
        enableMermaid (settings context) = true ->
        fence context token = DIV_MERMAID ++ escapeHtml (content token) ++ js "</div>")
  /\ getFenceLanguage lead = [].
Proof.
  intros Hl Hw Hn Ht.
  assert (E : getFenceLanguage (lead ++ word ++ tail) = toLowerCase word).
  { unfold getFenceLanguage. now rewrite first_word_of_info. }
  split; [exact E|]. split.
  - intros context token Hi Hm He. unfold fence. cbv zeta.
    now rewrite Hi, E, Hm, He.
  - unfold getFenceLanguage, trim, trimStart.
    rewrite (dropWhile_all _ _ Hl). apply toLowerCase_empty.
Qed.

End FenceLanguage.

Lemma escapeChar_nonempty (x : N) (r : jsstring) : escapeChar x ++ r <> [].
Proof.
  unfold escapeChar.
  repeat match goal with |- context [if ?b then _ else _] => destruct b end;
    discriminate.
Qed.

(** What [escapeHtml] writes for one character tells the character: no
    output of one is a prefix of the output of another. *)
Lemma escapeChar_prefix_free (x y : N) (r1 r2 : jsstring) :
  escapeChar x ++ r1 = escapeChar y ++ r2 -> x = y /\ r1 = r2.
Proof.
  unfold escapeChar.
  destruct (N.eqb_spec x CH_AMP) as [->|?];
    [|destruct (N.eqb_spec x CH_LT) as [->|?];
      [|destruct (N.eqb_spec x CH_GT) as [->|?];
        [|destruct (N.eqb_spec x CH_DQUOTE) as [->|?];
          [|destruct (N.eqb_spec x CH_SQUOTE) as [->|?]]]]];
  (destruct (N.eqb_spec y CH_AMP) as [->|?];
    [|destruct (N.eqb_spec y CH_LT) as [->|?];
      [|destruct (N.eqb_spec y CH_GT) as [->|?];
        [|destruct (N.eqb_spec y CH_DQUOTE) as [->|?];
          [|destruct (N.eqb_spec y CH_SQUOTE) as [->|?]]]]]);
  cbn [js map list_ascii_of_string N_of_ascii app]; intros E;
  try discriminate E;
  try (injection E; intros; subst; first [ now split | congruence | contradiction ]).
Qed.

Lemma escapeChar_length (x : N) :
  (1 <= length (escapeChar x))%nat
  /\ (isHtmlSpecial x = true -> 2 <= length (escapeChar x))%nat.
Proof.
  unfold escapeChar, isHtmlSpecial.
  destruct (x =? CH_AMP)%N; [cbn; lia|].
  destruct (x =? CH_LT)%N; [cbn; lia|].
  destruct (x =? CH_GT)%N; [cbn; lia|].
  destruct (x =? CH_DQUOTE)%N; [cbn; lia|].
  destruct (x =? CH_SQUOTE)%N; [cbn; lia|].
  cbn. split; [lia | discriminate].
Qed.

Lemma escapeHtml_length (s : jsstring) :
  (length s <= length (flat_map escapeChar s))%nat
  /\ (existsb isHtmlSpecial s = true -> length s < length (flat_map escapeChar s))%nat.
Proof.
  induction s as [|c s [IH1 IH2]]; cbn [flat_map existsb length].
  - split; [lia | discriminate].
  - rewrite length_app. destruct (escapeChar_length c) as [L1 L2]. split; [lia|].
    intros E. apply orb_true_iff in E as [E | E]; [specialize (L2 E) | specialize (IH2 E)]; lia.
Qed.

(** X16: escaping loses nothing and changes nothing it need not.  Two texts
    with the same escape are the same text; and a text is its own escape
    exactly when it holds none of the five characters. *)
Theorem X16_escapeHtml_is_injective (a b : jsstring) :
  (escapeHtml a = escapeHtml b -> a = b)
  /\ (escapeHtml a = a <-> existsb isHtmlSpecial a = false).
Proof.
  split.
  - rewrite !escapeHtml_one_pass. revert b.
    induction a as [|x a IH]; intros [|y b]; cbn [flat_map]; intros E.
    + reflexivity.
    + symmetry in E. now apply escapeChar_nonempty in E.
    + now apply escapeChar_nonempty in E.
    + apply escapeChar_prefix_free in E as [-> E]. now rewrite (IH _ E).
  - split.
    + intros E. destruct (existsb isHtmlSpecial a) eqn:S; [|reflexivity].
      rewrite escapeHtml_one_pass in E.
      destruct (escapeHtml_length a) as [_ L]. specialize (L S). rewrite E in L. lia.
    + intros S. apply escapeHtml_plain.
      induction a as [|c a IH]; [reflexivity|]. cbn [existsb forallb] in *.
      apply orb_false_iff in S as [Sc Sa]. now rewrite Sc, IH.
Qed.

(** ** The session as a whole *)

Module PreviewSessionFacts.

Import PreviewPanel PreviewSession PreviewPanelFacts.

(** What holds of a session and of what it has posted so far: one timer at
    most, no more payloads posted or pending than renders run, nothing posted
    before the webview is ready, nothing pending once it is. *)
Definition sessionInv (s : FullSession) (posted : list RenderPayload) : Prop :=
  timerInv (timer s)
  /\ (length posted + length (optionToList (pendingRenderPayload (handshake s)))
      <= rendersRun (timer s))%nat
  /\ (isReady (handshake s) = false -> posted = [])
  /\ (isReady (handshake s) = true -> pendingRenderPayload (handshake s) = None).

Lemma scheduleRenderOf_facts (d : Z) (s : FullSession) :
  timerInv (timer s) ->
  timerInv (timer (scheduleRenderOf d s))
  /\ armedTimers (timer (scheduleRenderOf d s)) = [(nextHandle (timer s), Z.max 0 d)]
  /\ rendersRun (timer (scheduleRenderOf d s)) = rendersRun (timer s)
  /\ handshake (scheduleRenderOf d s) = handshake s
  /\ currentDocument (scheduleRenderOf d s) = currentDocument s.
Proof.
  intros I. unfold scheduleRenderOf. cbn [timer handshake currentDocument].
  split; [exact (timerStep_inv (timer s) (Schedule d) I)|].
  rewrite (scheduleRender_shape d _ I). cbn [armedTimers rendersRun]. auto.
Qed.

Lemma editorStep_facts (s : FullSession) (e : Z * EditorEvent) :
  timerInv (timer s) ->
  timerInv (timer (editorStep s e))
  /\ rendersRun (timer (editorStep s e)) = rendersRun (timer s)
  /\ handshake (editorStep s e) = handshake s
  /\ currentDocument (editorStep s e)
     = match shownBy e with Some d => d | None => currentDocument s end.
Proof.
  intros I. destruct e as [d [doc | [[doc lang]|] | | doc]];
    unfold shownBy; cbn [editorStep snd].
  - unfold handleTextDocumentChange.
    destruct (negb (jseqb doc (currentDocument s))); [auto|].
    destruct (scheduleRenderOf_facts d s I) as (A & _ & B & C & D). auto.
  - unfold handleActiveEditorChange.
    destruct (jseqb lang (js "markdown")); cbn [negb]; [|auto].
    unfold setDocument.
    destruct (scheduleRenderOf_facts d (mkFullSession doc (timer s) (handshake s)) I)
      as (A & _ & B & C & D). auto.
  - cbn [handleActiveEditorChange]. auto.
  - unfold handleThemeChange.
    destruct (scheduleRenderOf_facts d s I) as (A & _ & B & C & D). auto.
  - unfold setDocument.
    destruct (scheduleRenderOf_facts d (mkFullSession doc (timer s) (handshake s)) I)
      as (A & _ & B & C & D). auto.
Qed.

Lemma last_cons_default (A : Type) (l : list A) (a d : A) :
  last (a :: l) d = last l a.
Proof.
  revert a d. induction l as [|b l IH]; intros a d; [reflexivity|].
  change (last (a :: b :: l) d) with (last (b :: l) d). now rewrite (IH b d), (IH b a).
Qed.

Lemma editorRun_facts (events : list (Z * EditorEvent)) (s : FullSession) :
  timerInv (timer s) ->
  timerInv (timer (editorRun s events))
  /\ rendersRun (timer (editorRun s events)) = rendersRun (timer s)
  /\ handshake (editorRun s events) = handshake s
  /\ currentDocument (editorRun s events)
     = last (flat_map (fun e => optionToList (shownBy e)) events) (currentDocument s).
Proof.
  revert s. induction events as [|e events IH]; intros s I; [auto|].
  cbn [editorRun fold_left flat_map].
  destruct (editorStep_facts s e I) as (A & B & C & D).
  destruct (IH _ A) as (A' & B' & C' & D'). unfold editorRun in *.
  rewrite B', C', D', B, C, D. repeat split; try assumption.
  destruct (shownBy e) as [doc|]; cbn [optionToList app]; [|reflexivity].
  now rewrite last_cons_default.
Qed.

Lemma fireTimer_armed (h : nat) (t : TimerState) :
  existsb (fun x => Nat.eqb (fst x) h) (armedTimers t) = true ->
  rendersRun (fireTimer h t) = S (rendersRun t) /\ renderTimer (fireTimer h t) = None.
Proof. intros E. unfold fireTimer. rewrite E. split; reflexivity. Qed.

Lemma sessionStep_inv (s : FullSession) (e : SessionEvent) (posted : list RenderPayload) :
  sessionInv s posted ->
  sessionInv (fst (sessionStep s e)) (posted ++ snd (sessionStep s e)).
Proof.
  intros (I & C & N & P). destruct e as [d e | h world | m]; cbn [sessionStep].
  - cbn [fst snd]. rewrite app_nil_r.
    destruct (editorStep_facts s (d, e) I) as (A & B & E & _).
    unfold sessionInv. rewrite B, E. auto.
  - unfold timerFires.
    destruct (existsb _ (armedTimers (timer s))) eqn:Armed;
      [|cbn [fst snd]; rewrite app_nil_r; unfold sessionInv; auto].
    destruct (fireTimer_armed h _ Armed) as [R _].
    pose proof (timerStep_inv (timer s) (Fire h) I) as I'. cbn [timerStep] in I'.
    unfold renderNow, postRenderPayload. cbn [handshake currentDocument timer].
    destruct (isReady (handshake s)) eqn:Ready; cbn [negb fst snd];
      unfold sessionInv; cbn [timer handshake isReady pendingRenderPayload optionToList length].
    + rewrite Ready, R, (P eq_refl) in *. cbn [optionToList length] in *.
      rewrite length_app. cbn [length]. repeat split; try assumption; try lia; try discriminate.
    + rewrite (N eq_refl), R in *. cbn [app length] in *.
      repeat split; try assumption; try lia; try discriminate.
  - destruct m as [| hr sd |]; cbn [handleMessage];
      try (cbn [fst snd]; rewrite app_nil_r; unfold sessionInv; now auto).
    cbn [pendingRenderPayload isReady].
    destruct (pendingRenderPayload (handshake s)) as [pending|] eqn:Pe;
      cbn [fst snd]; unfold sessionInv;
      cbn [timer handshake isReady pendingRenderPayload optionToList length] in *.
    + destruct (isReady (handshake s)) eqn:Ready; [now specialize (P eq_refl)|].
      rewrite (N eq_refl) in *. cbn [app length] in *.
      repeat split; try assumption; try lia; try discriminate.
    + rewrite app_nil_r. repeat split; try assumption; try lia; try discriminate.
Qed.

Lemma sessionRun_inv (events : list SessionEvent) (s : FullSession)
    (posted : list RenderPayload) :
  sessionInv s posted ->
  sessionInv (fst (sessionRun s events)) (posted ++ snd (sessionRun s events)).
Proof.
  revert s posted. induction events as [|e events IH]; intros s posted I.
  - cbn [sessionRun fst snd]. now rewrite app_nil_r.
  - cbn [sessionRun]. pose proof (sessionStep_inv s e posted I) as I1.
    destruct (sessionStep s e) as [s1 out1]. cbn [fst snd] in I1.
    pose proof (IH s1 _ I1) as I2.
    destruct (sessionRun s1 events) as [s2 out2]. cbn [fst snd] in *.
    now rewrite app_assoc.
Qed.

Lemma construct_inv (d : Z) (document : jsstring) : sessionInv (construct d document) [].
Proof.
  unfold construct.
  destruct (scheduleRenderOf_facts d (mkFullSession document noTimer newSession) eq_refl)
    as (A & _ & B & C & _).
  unfold sessionInv. rewrite B, C. cbn. repeat split; auto; try discriminate.
Qed.

(** X17: the session, from its constructor on, under any sequence of editor
    events, timer firings and webview messages.  One timer at most is armed,
    the one the session holds; the webview is never sent more payloads than
    renders have run, a pending one counted; nothing is sent before it is
    ready.  And a burst of editor events that ends with a change of theme or
    of the shown document leaves one armed timer: when it fires, the session
    renders once, the document the burst showed last, and posts that payload
    if the webview is ready, else keeps it pending. *)
Theorem X17_a_burst_of_changes_posts_one_render
    (debounceMs : Z) (document : jsstring) (events : list SessionEvent) :
  let s := fst (sessionRun (construct debounceMs document) events) in
  let posted := snd (sessionRun (construct debounceMs document) events) in
  map fst (armedTimers (timer s)) = optionToList (renderTimer (timer s))
  /\ (length posted + length (optionToList (pendingRenderPayload (handshake s)))
      <= rendersRun (timer s))%nat
  /\ (isReady (handshake s) = false -> posted = [])
  /\ (forall burst d final world,
        final = ThemeChanged
        \/ final = TextDocumentChanged (currentDocument (editorRun s burst)) ->
        let s' := editorRun s (burst ++ [(d, final)]) in
        currentDocument s'
        = last (flat_map (fun e => optionToList (shownBy e)) burst) (currentDocument s)
        /\ exists handle,
             armedTimers (timer s') = [(handle, Z.max 0 d)]
             /\ armedTimers (timer (fst (timerFires handle world s'))) = []
             /\ rendersRun (timer (fst (timerFires handle world s'))) = S (rendersRun (timer s))
             /\ currentDocument (fst (timerFires handle world s')) = currentDocument s'
             /\ snd (timerFires handle world s')
                = (if isReady (handshake s) then [world (currentDocument s')] else [])
             /\ pendingRenderPayload (handshake (fst (timerFires handle world s')))
                = (if isReady (handshake s) then None
                   else Some (world (currentDocument s')))).
Proof.
  cbv zeta.
  pose proof (sessionRun_inv events _ [] (construct_inv debounceMs document)) as Inv.
  cbn [app] in Inv.
  destruct (sessionRun (construct debounceMs document) events) as [s posted].
  cbn [fst snd] in *. destruct Inv as (I & C & N & P).
  split; [|split; [exact C|split; [exact N|]]].
  - unfold timerInv in I. destruct (renderTimer (timer s)) as [t|].
    + destruct I as (d & -> & _). reflexivity.
    + now rewrite I.
  - intros burst d final world Hfinal.
    unfold editorRun. rewrite fold_left_app. fold (editorRun s burst).
    destruct (editorRun_facts burst s I) as (Ib & Rb & Hb & Db).
    set (sb := editorRun s burst) in *.
    assert (E : fold_left editorStep [(d, final)] sb = scheduleRenderOf d sb).
    { destruct Hfinal as [-> | ->]; cbn [fold_left editorStep]; [reflexivity|].
      unfold handleTextDocumentChange. now rewrite jseqb_refl. }
    rewrite E. destruct (scheduleRenderOf_facts d sb Ib) as (A1 & A2 & A3 & A4 & A5).
    rewrite A5. split; [exact Db|].
    exists (nextHandle (timer sb)). split; [exact A2|].
    unfold timerFires. rewrite A2. cbn [existsb fst]. rewrite Nat.eqb_refl. cbn [orb].
    unfold renderNow, postRenderPayload. cbn [handshake currentDocument timer].
    rewrite A4, Hb, A5.
    assert (F : fireTimer (nextHandle (timer sb)) (timer (scheduleRenderOf d sb))
                = mkTimerState None [] (S (nextHandle (timer sb))) (S (rendersRun (timer sb)))).
    { unfold scheduleRenderOf. cbn [timer]. rewrite (scheduleRender_shape d _ Ib).
      unfold fireTimer. cbn [armedTimers existsb fst]. rewrite Nat.eqb_refl. cbn [orb].
      rewrite clearTimeout_single. reflexivity. }
    rewrite F.
    destruct (isReady (handshake s)) eqn:Ready; cbn [negb fst snd timer armedTimers
      rendersRun currentDocument handshake pendingRenderPayload];
      rewrite Rb; repeat split; auto.
Qed.

End PreviewSessionFacts.

(** ** The theme of the webview *)

Lemma jseqb_sym (a b : jsstring) : jseqb a b = jseqb b a.
Proof.
  destruct (jseqb a b) eqn:E.
  - apply jseqb_eq in E. subst. symmetry. apply jseqb_refl.
  - destruct (jseqb b a) eqn:E'; [|reflexivity].
    apply jseqb_eq in E'. subst. now rewrite jseqb_refl in E.
Qed.

Lemma classList_remove_theme (classes : list jsstring) :
  classList_remove [js "theme-light"; js "theme-dark"] classes
  = filter (fun c => negb (isThemeClass c)) classes.
Proof.
  unfold classList_remove. apply filter_ext. intros c.
  unfold isThemeClass. cbn [existsb]. now rewrite orb_false_r.
Qed.

Lemma filter_none (A : Type) (f : A -> bool) (l : list A) :
  filter f (filter (fun c => negb (f c)) l) = [].
Proof.
  induction l as [|a l IH]; [reflexivity|]. cbn [filter].
  destruct (f a) eqn:E; cbn [negb filter]; [exact IH|]. now rewrite E.
Qed.

Lemma filter_idem (A : Type) (f : A -> bool) (l : list A) :
  filter f (filter f l) = filter f l.
Proof.
  induction l as [|a l IH]; [reflexivity|]. cbn [filter].
  destruct (f a) eqn:E; cbn [filter]; [|exact IH]. now rewrite E, IH.
Qed.

Lemma existsb_filter_none (name : jsstring) (classes : list jsstring) :
  isThemeClass name = true ->
  existsb (jseqb name) (filter (fun c => negb (isThemeClass c)) classes) = false.
Proof.
  intros T. induction classes as [|c classes IH]; [reflexivity|]. cbn [filter].
  destruct (isThemeClass c) eqn:E; cbn [negb existsb]; [exact IH|].
  rewrite IH, orb_false_r. destruct (jseqb name c) eqn:J; [|reflexivity].
  apply jseqb_eq in J. subst. congruence.
Qed.

Lemma applyTheme_shape (theme_ : jsstring) (classes : list jsstring) :
  applyTheme theme_ classes
  = filter (fun c => negb (isThemeClass c)) classes
    ++ [if jseqb theme_ (js "dark") then js "theme-dark" else js "theme-light"].
Proof.
  unfold applyTheme, classList_add. rewrite classList_remove_theme.
  rewrite existsb_filter_none; [reflexivity|]. now destruct (jseqb theme_ (js "dark")).
Qed.

(** X18: [applyTheme] leaves the body with exactly one theme class, the dark
    one for the theme [dark] and the light one for anything else, whatever
    classes the body had (none, one or both theme classes); it keeps every
    other class, in order; and of two calls the last one wins, so a theme
    applied twice is applied once. *)
Theorem X18_applyTheme_leaves_one_theme_class
    (theme_ earlier : jsstring) (classes : list jsstring) :
  filter isThemeClass (applyTheme theme_ classes)
  = [if jseqb theme_ (js "dark") then js "theme-dark" else js "theme-light"]
  /\ filter (fun c => negb (isThemeClass c)) (applyTheme theme_ classes)
     = filter (fun c => negb (isThemeClass c)) classes
  /\ applyTheme theme_ (applyTheme earlier classes) = applyTheme theme_ classes.
Proof.
  rewrite !applyTheme_shape.
  assert (T : forall t : jsstring,
             isThemeClass (if jseqb t (js "dark") then js "theme-dark" else js "theme-light")
             = true)
    by (intros t; now destruct (jseqb t (js "dark"))).
  split; [|split].
  - rewrite filter_app, filter_none. cbn [filter app]. now rewrite T.
  - rewrite filter_app, filter_idem. cbn [filter]. rewrite T. cbn [negb].
    now rewrite app_nil_r.
  - rewrite filter_app, filter_idem. cbn [filter]. rewrite T. cbn [negb].
    now rewrite app_nil_r.
Qed.

(** ** Worked examples on the reference host *)

Module Examples.

Import RefHost.



(** C2 at the spec's external link and at a drive path. *)
Lemma C2_scheme_is_external_drive_path_is_not_witness :
  rewriteLinkHref (js "https://example.com/docs?q=1#section") (testContext true)
  = mkLinkRewriteResult (js "https://example.com/docs?q=1#section") external
  /\ kind (rewriteLinkHref (js "C:/docs/readme.txt") (testContext true)) <> external.
Proof.
  split.
  - apply (proj1 (C2_scheme_is_external_drive_path_is_not (testContext true)
                    (js "https://example.com/docs?q=1#section"))); reflexivity.
  - apply (proj2 (C2_scheme_is_external_drive_path_is_not (testContext true)
                    (js "C:/docs/readme.txt"))); reflexivity.
Defined.

(** C4 at [/images/logo.png]: the code resolves to the file system path
    [/images/logo.png]; stripping the slash and joining with the workspace
    root [/workspace] would give [/workspace/images/logo.png]. *)
Lemma C4_leading_slash_resolved_as_filesystem_path_witness :
  resolveLocalFileUri (js "/images/logo.png") (file (js "/workspace/docs/note.md"))
                      (Some (file (js "/workspace")))
  = Some (file (js "/images/logo.png"))
  /\ file (js "/images/logo.png")
     <> file (path_join (js "/workspace") (dropWhile clsPathSep (js "/images/logo.png"))).
Proof.
  split.
  - exact (proj1 (C4_leading_slash_resolved_as_filesystem_path
                    (js "images/logo.png") (file (js "/workspace/docs/note.md"))
                    (Some (file (js "/workspace"))))).
  - vm_compute. discriminate.
Defined.

(** The branch for workspace-root paths is reached on POSIX for a path that
    begins with a backslash. *)
Example root_relative_backslash_example :
  resolveLocalFileUri (CH_BACKSLASH :: js "images/logo.png")
                      (file (js "/workspace/docs/note.md")) None
  = Some (file (js "/workspace/images/logo.png")).
Proof. reflexivity. Qed.

(** X1 with no workspace folder open: the root-relative link and image are
    left as written. *)
Lemma X1_rewriters_fail_open_witness :
  resolveLocalFileUri (H := bareHost) (CH_BACKSLASH :: js "images/logo.png")
                      (file (js "/tmp/note.md")) None = None
  /\ rewriteLinkHref (CH_BACKSLASH :: js "images/logo.png") bareContext
     = mkLinkRewriteResult (CH_BACKSLASH :: js "images/logo.png") asset
  /\ rewriteImageSource (CH_BACKSLASH :: js "images/logo.png") bareContext
     = CH_BACKSLASH :: js "images/logo.png".
Proof.
  split; [reflexivity|].
  destruct (X1_rewriters_fail_open (H := bareHost) bareContext
              (CH_BACKSLASH :: js "images/logo.png") eq_refl) as [_ I].
  split; [reflexivity | exact I].
Defined.

(** X2 with the workspace folder [/workspace]. *)
Lemma X2_root_relative_resolution_witness :
  resolveLocalFileUri (CH_BACKSLASH :: js "/images/logo.png?v=2")
                      (file (js "/workspace/docs/note.md")) (Some (file (js "/workspace")))
  = Some (mkRefUri (js "file") (js "/workspace/images/logo.png") (js "v=2") []).
Proof.
  exact (X2_root_relative_resolution (H := refHost) (js "/images/logo.png?v=2")
           (file (js "/workspace/docs/note.md")) (Some (file (js "/workspace"))) eq_refl).
Defined.

(** X4 at the hash link of the renderer tests. *)
Lemma X4_hash_link_passes_through_witness :
  rewriteLinkHref (js "#section-1") (testContext true)
  = mkLinkRewriteResult (js "#section-1") hash.
Proof.
  exact (X4_hash_link_passes_through (testContext true) (js "#section-1") eq_refl).
Defined.

(** X5 at a [data:] image and at a remote image. *)
Lemma X5_image_source_passes_through_witness :
  rewriteImageSource (js "data:image/png;base64,AAAA") (testContext true)
  = js "data:image/png;base64,AAAA"
  /\ rewriteImageSource (js "https://example.com/a.png?size=2") (testContext true)
     = js "https://example.com/a.png?size=2".
Proof.
  split.
  - exact (X5_image_source_passes_through (testContext true)
             (js "data:image/png;base64,AAAA") (or_introl eq_refl)).
  - exact (X5_image_source_passes_through (testContext true)
             (js "https://example.com/a.png?size=2") (or_intror eq_refl)).
Defined.

(** X3 at a relative asset link. *)
Lemma X3_local_link_is_asset_witness :
  kind (rewriteLinkHref (js "./assets/spec.pdf?download=1#top") (testContext true)) = asset.
Proof.
  exact (X3_local_link_is_asset (testContext true) (js "./assets/spec.pdf?download=1#top")
           eq_refl eq_refl eq_refl).
Defined.

(** C5 at the spec's scenario, [./guide.md#intro]. *)
Lemma C5_markdown_link_kept_verbatim_witness :
  rewriteLinkHref (js "./guide.md#intro") (testContext true)
  = mkLinkRewriteResult (js "./guide.md#intro") markdown
  /\ attrGet (link_open (testContext true) (linkToken (js "./guide.md#intro"))) (js "href")
     = Some (js "./guide.md#intro")
  /\ attrGet (link_open (testContext true) (linkToken (js "./guide.md#intro")))
             (js "data-link-kind") = Some (js "markdown")
  /\ attrGet (link_open (testContext true) (linkToken (js "./guide.md#intro")))
             (js "target") = Some (js "_self").
Proof.
  destruct (C5_markdown_link_kept_verbatim (testContext true) (js "./guide.md#intro")
              (linkToken (js "./guide.md#intro")) eq_refl eq_refl (or_introl eq_refl))
    as [E K].
  split; [exact E | exact (K eq_refl)].
Defined.

(** C6 at the spec's external link, attribute by attribute. *)
Lemma C6_anchor_attribute_contract_witness :
  let t := link_open (testContext true) (linkToken (js "https://example.com/docs?q=1#section")) in
  attrGet t (js "href") = Some (js "https://example.com/docs?q=1#section")
  /\ attrGet t (js "data-original-href") = Some (js "https://example.com/docs?q=1#section")
  /\ attrGet t (js "data-source-doc") = Some (js "file:///workspace/docs/note.md")
  /\ attrGet t (js "data-link-kind") = Some (js "external")
  /\ attrGet t (js "target") = Some (js "_blank")
  /\ attrGet t (js "rel") = Some (js "noopener noreferrer").
Proof.
  pose proof (C6_anchor_attribute_contract (testContext true)
                (linkToken (js "https://example.com/docs?q=1#section"))) as P.
  cbv zeta in P. destruct P as (A1 & A2 & A3 & A4 & _ & A6 & _ & A8).
  cbv zeta.
  exact (conj A1 (conj A2 (conj A3 (conj A4 (conj (proj2 A6 eq_refl) A8))))).
Defined.

(** The whole attribute list of that anchor, in order. *)
Example C6_anchor_example :
  attrs (link_open (testContext true) (linkToken (js "https://example.com/docs?q=1#section")))
  = [(js "href", js "https://example.com/docs?q=1#section");
     (js "data-original-href", js "https://example.com/docs?q=1#section");
     (js "data-source-doc", js "file:///workspace/docs/note.md");
     (js "data-link-kind", js "external");
     (js "target", js "_blank");
     (js "rel", js "noopener noreferrer")].
Proof. reflexivity. Qed.

(** C7 at the spec's scenario: two renders, then the readiness signal. *)
Lemma C7_readiness_handshake_witness :
  run newSession [EvRender (payload 1); EvRender (payload 2); EvMessage MsgReady]
  = (mkSession true None, [payload 2])
  /\ run newSession [EvRender (payload 1); EvMessage MsgReady;
                     EvRender (payload 2); EvMessage MsgReady; EvRender (payload 3)]
     = (mkSession true None, [payload 1; payload 2; payload 3]).
Proof.
  split.
  - exact (proj1 (proj2 (proj2 C7_readiness_handshake))
             [EvRender (payload 1); EvRender (payload 2)] [] eq_refl).
  - exact (proj1 (proj2 (proj2 C7_readiness_handshake))
             [EvRender (payload 1)]
             [EvRender (payload 2); EvMessage MsgReady; EvRender (payload 3)] eq_refl).
Defined.

(** C8 at the spec's scenario. *)
Lemma C8_mermaid_fence_witness :
  fence (testContext true) mermaidToken
  = DIV_MERMAID ++ js "graph TD;" ++ lf ++ js "A--&gt;B;" ++ lf ++ js "</div>"
  /\ includes (js "graph TD;") (fence (testContext true) mermaidToken) = true
  /\ includes PRE_CODE_BLOCK (fence (testContext false) mermaidToken) = true
  /\ includes (js "class=" ++ quoted (js "mermaid")) (fence (testContext false) mermaidToken)
     = false.
Proof.
  destruct (C8_mermaid_fence (testContext true) mermaidToken eq_refl) as [On _].
  destruct (C8_mermaid_fence (testContext false) mermaidToken eq_refl) as [_ Off].
  destruct (On eq_refl) as (E & _ & K).
  destruct (Off eq_refl) as (_ & P & _ & Q).
  destruct (Q eq_refl) as (_ & C & _).
  split; [rewrite E; reflexivity|].
  split; [apply K; reflexivity|].
  split; [exact P | exact C].
Defined.

(** C9 at the spec's scenario. *)
Lemma C9_unknown_language_is_escaped_witness :
  fence (testContext true) scriptToken
  = PRE_CODE_BLOCK ++ CODE_HLJS
    ++ js "&lt;script&gt;alert(&#39;xss&#39;)&lt;/script&gt;" ++ lf
    ++ js "</code></pre>" ++ lf
  /\ includes (js "<script>") (fence (testContext true) scriptToken) = false.
Proof.
  assert (Hu : toLowerCase (splitWhiteSpaceFirst (trim (js "unknown"))) = []
               \/ hljs_getLanguage (toLowerCase (splitWhiteSpaceFirst (trim (js "unknown"))))
                  = false) by (right; reflexivity).
  destruct (C9_unknown_language_is_escaped (content scriptToken) (js "unknown") Hu)
    as (_ & _ & _ & _ & K).
  destruct (K (testContext true) scriptToken eq_refl eq_refl eq_refl) as [_ N].
  split; [reflexivity | exact N].
Defined.

(** C10 at [C:notes.txt]. *)
Lemma C10_drive_relative_path_is_external_witness :
  rewriteLinkHref (js "C:notes.txt") (testContext true)
  = mkLinkRewriteResult (js "C:notes.txt") external
  /\ attrGet (link_open (testContext true) (linkToken (js "C:notes.txt")))
             (js "target") = Some (js "_blank").
Proof.
  assert (Hs : (110 <> CH_SLASH)%N) by discriminate.
  assert (Hb : (110 <> CH_BACKSLASH)%N) by discriminate.
  destruct (C10_drive_relative_path_is_external (testContext true) 67%N 110%N
              (js "otes.txt") (linkToken (js "C:notes.txt")) eq_refl Hs Hb)
    as [E K].
  split; [exact E | exact (proj2 (K eq_refl))].
Defined.

Import RefNav.

(** X7 at the image of the renderer tests. *)
Lemma X7_image_and_link_rewrite_alike_witness :
  rewriteImageSource (js "./assets/diagram.png?size=2#frag") (testContext true)
  = href (rewriteLinkHref (js "./assets/diagram.png?size=2#frag") (testContext true))
  /\ rewriteImageSource (js "./assets/diagram.png?size=2#frag") (testContext true)
     = js "vscode-webview:file:///workspace/docs/./assets/diagram.png?size=2#frag".
Proof.
  split; [|reflexivity].
  exact (proj1 (X7_image_and_link_rewrite_alike (testContext true)
                  (js "./assets/diagram.png?size=2#frag")) eq_refl).
Defined.

(** X8 at a link that carries a title. *)
Lemma X8_rules_keep_other_attributes_witness :
  attrGet (link_open (testContext true)
             (mkToken [(js "href", js "./guide.md"); (js "title", js "Guide")] [] []))
          (js "title")
  = Some (js "Guide").
Proof.
  apply (proj1 (X8_rules_keep_other_attributes (testContext true)
                  (mkToken [(js "href", js "./guide.md"); (js "title", js "Guide")] [] [])
                  (js "title"))).
  cbn [In]. intros [E|[E|[E|[E|[E|[E|[]]]]]]]; discriminate E.
Defined.

(** X9 at the asset link of the renderer tests: the href is rewritten, the
    click reports it as authored. *)
Lemma X9_click_reports_the_authored_href_witness :
  attrGet (link_open (testContext true) (linkToken (js "./assets/spec.pdf?download=1#top")))
          (js "href")
  = Some (js "vscode-webview:file:///workspace/docs/./assets/spec.pdf?download=1#top")
  /\ clickLink (attrs (link_open (testContext true)
                         (linkToken (js "./assets/spec.pdf?download=1#top"))))
     = Some (MsgOpenLink (js "./assets/spec.pdf?download=1#top")
                         (js "file:///workspace/docs/note.md")).
Proof.
  split; [reflexivity|].
  exact (proj1 (X9_click_reports_the_authored_href (testContext true)
                  (linkToken (js "./assets/spec.pdf?download=1#top")))).
Defined.

(** X10 at the external link of the renderer tests. *)
Lemma X10_opened_externally_was_rendered_external_witness :
  PreviewPanel.handleOpenLink (file (js "/workspace/docs/note.md"))
    (js "https://example.com/docs?q=1#section") (js "file:///workspace/docs/note.md")
  = Returned (PreviewPanel.OpenExternal
                (mkRefUri (js "https") (js "//example.com/docs") (js "q=1") (js "section")))
  /\ kind (rewriteLinkHref (js "https://example.com/docs?q=1#section") (testContext true))
     = external.
Proof.
  destruct (X10_opened_externally_was_rendered_external (H := refHost) (NH := refNav)
              (testContext true)
              (file (js "/workspace/docs/note.md"))
              (js "https://example.com/docs?q=1#section")
              (js "file:///workspace/docs/note.md") eq_refl) as [A B].
  split; [exact A | exact (f_equal kind B)].
Defined.

(** X11 at an [ftp:] link. *)
Lemma X11_other_schemes_render_external_but_open_nothing_witness :
  rewriteLinkHref (js "ftp://example.com/file.zip") (testContext true)
  = mkLinkRewriteResult (js "ftp://example.com/file.zip") external
  /\ PreviewPanel.handleOpenLink (file (js "/workspace/docs/note.md"))
       (js "ftp://example.com/file.zip") (js "file:///workspace/docs/note.md")
     = Returned PreviewPanel.NoAction.
Proof.
  exact (X11_other_schemes_render_external_but_open_nothing (H := refHost) (NH := refNav)
           (testContext true)
           (file (js "/workspace/docs/note.md")) (js "ftp://example.com/file.zip")
           (js "file:///workspace/docs/note.md")
           eq_refl eq_refl eq_refl eq_refl eq_refl eq_refl eq_refl).
Defined.

(** X12 at the asset link of the renderer tests. *)
Lemma X12_navigation_resolves_as_the_renderer_witness :
  PreviewPanel.resolveLocalUri (js "./assets/spec.pdf?download=1#top")
    (file (js "/workspace/docs/note.md"))
  = Returned (Some (mkRefUri (js "file") (js "/workspace/docs/./assets/spec.pdf")
                             (js "download=1") (js "top"))).
Proof.
  refine (X12_navigation_resolves_as_the_renderer (H := refHost) (NH := refNav)
            (js "./assets/spec.pdf?download=1#top") (file (js "/workspace/docs/note.md"))
            (Some (file (js "/workspace"))) (or_intror eq_refl) eq_refl eq_refl _ _ _).
  - intros root E. injection E as <-. reflexivity.
  - intros [|a0 a] b; reflexivity.
  - intros [|a0 a] b; reflexivity.
Defined.

(** X13 at a burst of three schedulings, the last with a negative setting. *)
Lemma X13_debounce_keeps_one_timer_witness :
  exists handle,
    PreviewPanel.armedTimers
      (PreviewPanel.timerRun PreviewPanel.noTimer
         [PreviewPanel.Schedule 150; PreviewPanel.Schedule 0; PreviewPanel.Schedule (-5)])
    = [(handle, 0%Z)]
    /\ PreviewPanel.rendersRun
         (PreviewPanel.fireTimer handle
            (PreviewPanel.timerRun PreviewPanel.noTimer
               [PreviewPanel.Schedule 150; PreviewPanel.Schedule 0;
                PreviewPanel.Schedule (-5)]))
       = 1%nat.
Proof.
  destruct (proj2 (proj2 (proj2 (PreviewPanelFacts.X13_debounce_keeps_one_timer [])))
              [PreviewPanel.Schedule 150; PreviewPanel.Schedule 0] (-5)%Z eq_refl)
    as (handle & _ & A & _ & R & _).
  exists handle. split; [exact A | exact R].
Defined.

(** X14 at two [createOrShow] calls around a closing. *)
Lemma X14_at_most_one_panel_witness :
  PreviewPanel.openPanels
    (PreviewPanel.panelRun PreviewPanel.noPanel
       [PreviewPanel.CreateOrShow (js "a.md"); PreviewPanel.CreateOrShow (js "b.md");
        PreviewPanel.ClosePanel 0; PreviewPanel.CreateOrShow (js "c.md")])
  = optionToList
      (option_map fst
         (PreviewPanel.currentPanelInstance
            (PreviewPanel.panelRun PreviewPanel.noPanel
               [PreviewPanel.CreateOrShow (js "a.md"); PreviewPanel.CreateOrShow (js "b.md");
                PreviewPanel.ClosePanel 0; PreviewPanel.CreateOrShow (js "c.md")]))).
Proof.
  exact (proj1 (PreviewPanelFacts.X14_at_most_one_panel
                  [PreviewPanel.CreateOrShow (js "a.md"); PreviewPanel.CreateOrShow (js "b.md");
                   PreviewPanel.ClosePanel 0; PreviewPanel.CreateOrShow (js "c.md")])).
Defined.

(** X15 at a fence opened with [  Mermaid {theme: dark}]. *)
Lemma X15_fence_language_is_the_first_word_witness :
  getFenceLanguage (js "  Mermaid {theme: dark}") = js "mermaid"
  /\ fence (testContext true)
       (mkToken [] (js "  Mermaid {theme: dark}") (js "graph TD;"))
     = DIV_MERMAID ++ js "graph TD;" ++ js "</div>".
Proof.
  assert (Hw : js "Mermaid" <> []) by discriminate.
  destruct (X15_fence_language_is_the_first_word (js "  ") (js "Mermaid")
              (js " {theme: dark}") eq_refl Hw eq_refl
              (or_intror (ex_intro _ 32%N (ex_intro _ (js "{theme: dark}")
                                             (conj eq_refl eq_refl)))))
    as (A & B & _).
  split; [exact A|].
  exact (B (testContext true) (mkToken [] (js "  Mermaid {theme: dark}") (js "graph TD;"))
           eq_refl eq_refl eq_refl).
Defined.

(** X16 at a text with and a text without characters to escape. *)
Lemma X16_escapeHtml_is_injective_witness :
  escapeHtml (js "graph TD;") = js "graph TD;"
  /\ escapeHtml (js "A-->B;") <> js "A-->B;".
Proof.
  split.
  - exact (proj2 (proj2 (X16_escapeHtml_is_injective (js "graph TD;") [])) eq_refl).
  - intros E.
    pose proof (proj1 (proj2 (X16_escapeHtml_is_injective (js "A-->B;") [])) E) as S.
    discriminate S.
Defined.

(** X19 at a relative asset link, on the host with the parse of the
    renderer tests. *)
Lemma X19_click_opens_what_was_rendered_witness :
  clickLink (attrs (link_open MockHost.mockContext
                              (linkToken (js "assets/spec.pdf?download=1#top"))))
  = Some (MsgOpenLink (js "assets/spec.pdf?download=1#top")
                      (js "file:///workspace/docs/note.md"))
  /\ PreviewPanel.handleOpenLink (H := MockHost.mockHost) (NH := MockHost.mockNav)
       (file (js "/workspace/docs/note.md"))
       (js "assets/spec.pdf?download=1#top") (js "file:///workspace/docs/note.md")
     = Returned (PreviewPanel.OpenWithDefaultHandler (H := MockHost.mockHost)
                   (mkRefUri (js "file") (js "/workspace/docs/assets/spec.pdf")
                             (js "download=1") (js "top"))).
Proof.
  refine (proj2 (X19_click_opens_what_was_rendered
                   (H := MockHost.mockHost) (NH := MockHost.mockNav)
                   MockHost.mockContext
                   (linkToken (js "assets/spec.pdf?download=1#top"))
                   (file (js "/workspace/docs/note.md"))
                   (mkRefUri (js "file") (js "/workspace/docs/assets/spec.pdf")
                             (js "download=1") (js "top"))
                   eq_refl eq_refl eq_refl (or_intror eq_refl) eq_refl eq_refl eq_refl
                   eq_refl _ _ _)).
  - intros root E. injection E as <-. reflexivity.
  - intros [|a0 a] b; reflexivity.
  - intros [|a0 a] b; reflexivity.
Defined.

End Examples.
